(** * The questionnaire wizard of [static/js/questionnaire.js]

    A shallow embedding of the page script: the DOM handles it captures
    at [DOMContentLoaded], the counter [currentSection], the functions
    [showSection] and [validateSection], and the three event handlers
    (next, previous, submit), followed by the properties of the
    specification that concern them.

    Conventions of the embedding.
    - The counter [currentSection] is a double that holds an integer; it
      is kept as that integer ([Z]), with the one place where a step of
      the script is not exact written out ([decrement]). The progress
      percentage is the double the script computes ([float]).
    - Strings are [string]s of 8-bit code units.
    - An object literal used as a dictionary ([radioGroups], [data]) is
      the finite map of its own properties; reads and writes go through
      [Object.prototype], which it inherits from ([get_flag],
      [set_member]).
    - Calls into the platform that leave the page (alert, console,
      scrolling, fetch, storage, navigation) are recorded, in order, in
      an effect log; DOM mutations change the page state. *)

From Stdlib Require Import Floats ZArith Ascii String Lia.
From stdpp Require Import base strings list gmap.

Local Open Scope Z_scope.
Local Open Scope string_scope.

(** ** JavaScript strings, truthiness and loops *)

Module Js.

(** Code units that [String.prototype.trim] strips, among those below
    256: TAB, LF, VT, FF, CR, SPACE and NO-BREAK SPACE. *)
Definition isWhiteSpace (c : ascii) : bool :=
  let n := nat_of_ascii c in
  (Nat.leb 9 n && Nat.leb n 13) || Nat.eqb n 32 || Nat.eqb n 160.

Fixpoint trimStart (s : string) : string :=
  match s with
  | EmptyString => EmptyString
  | String c s' => if isWhiteSpace c then trimStart s' else s
  end.

Fixpoint trimEnd (s : string) : string :=
  match s with
  | EmptyString => EmptyString
  | String c s' =>
      match trimEnd s' with
      | EmptyString => if isWhiteSpace c then EmptyString else String c EmptyString
      | t => String c t
      end
  end.

Definition trim (s : string) : string := trimEnd (trimStart s).

(** ToBoolean on a string: only the empty string is falsy. *)
Definition truthy_string (s : string) : bool :=
  match s with
  | EmptyString => false
  | String _ _ => true
  end.

(** The names [Object.prototype] defines; an object literal inherits
    them, each with a truthy value. *)
Definition Object_prototype : list string :=
  ["constructor"; "hasOwnProperty"; "isPrototypeOf"; "propertyIsEnumerable";
   "toLocaleString"; "toString"; "valueOf"; "__proto__";
   "__defineGetter__"; "__defineSetter__"; "__lookupGetter__"; "__lookupSetter__"].

Definition inherited (name : string) : bool :=
  existsb (String.eqb name) Object_prototype.

(** ToBoolean of [obj[name]] for an object literal [obj] whose own
    members are booleans: the own member if there is one, else what
    [Object.prototype] gives. *)
Definition get_flag (obj : gmap string bool) (name : string) : bool :=
  match obj !! name with
  | Some b => b
  | None => inherited name
  end.

(** [obj[name] = v] on an object literal, for a primitive [v]: an own
    member is created or overwritten, except under the name [__proto__],
    where the assignment reaches the setter of [Object.prototype], which
    ignores a primitive. *)
Definition set_member {V : Type} (obj : gmap string V) (name : string) (v : V)
  : gmap string V :=
  if String.eqb name "__proto__" then obj else <[name := v]> obj.

(** [x--] on a double that holds an integer between -2^53 and 2^53, as
    the counter does, which starts at 0 and moves in steps of one: exact
    down to -2^53; there [x - 1] is not a double and rounds back to
    [x]. *)
Definition decrement (x : Z) : Z :=
  if Z.eqb x (- 2 ^ 53) then x else x - 1.

(** The double nearest to an integer. *)
Definition to_double (z : Z) : PrimFloat.float :=
  FloatOps.SF2Prim (SpecFloat.binary_normalize FloatOps.prec FloatOps.emax z 0 false).

(** [for (x of xs) { ... return r ... }] inside a function: the first
    iteration that returns ends the loop and the function. *)
Fixpoint for_of {A R : Type} (xs : list A) (body : A → option R) : option R :=
  match xs with
  | [] => None
  | x :: xs' =>
      match body x with
      | Some r => Some r
      | None => for_of xs' body
      end
  end.

(** [xs.forEach(callback)]: the callback runs on every element and
    whatever it returns is dropped. *)
Definition forEach {A S R : Type} (callback : A → S → S * R) (xs : list A) (s : S) : S :=
  fold_left (fun acc x => fst (callback x acc)) xs s.

(** [xs[i]] on an array-like: [undefined] outside [0, length). *)
Definition item {A : Type} (xs : list A) (i : Z) : option A :=
  if Z.ltb i 0 then None else xs !! Z.to_nat i.

End Js.

(** ** The DOM the script consumes *)

Module Dom.

(** The kinds of field of the data model. *)
Inductive FieldKind := Text | Radio | Checkbox | Select.

Record Field := {
  kind : FieldKind;
  name : string;
  value : string;
  checked : bool;
  required : bool
}.

Definition tagName (f : Field) : string :=
  match kind f with
  | Select => "SELECT"
  | _ => "INPUT"
  end.

(** The [type] property as the DOM reports it. *)
Definition type (f : Field) : string :=
  match kind f with
  | Text => "text"
  | Radio => "radio"
  | Checkbox => "checkbox"
  | Select => "select-one"
  end.

(** A section element: its class tokens and the fields below it in
    document order. *)
Record Section := {
  classList : list string;
  inputs : list Field
}.

Definition contains (token : string) (tokens : list string) : bool :=
  existsb (String.eqb token) tokens.

Definition remove (token : string) (tokens : list string) : list string :=
  List.filter (fun t => negb (String.eqb t token)) tokens.

Definition add (token : string) (tokens : list string) : list string :=
  if contains token tokens then tokens else tokens ++ [token].

Definition set_classList (s : Section) (tokens : list string) : Section :=
  {| classList := tokens; inputs := inputs s |}.

Definition querySelectorAll (s : Section) (selector : Field → bool) : list Field :=
  List.filter selector (inputs s).

(** ['input[required], select[required]'] *)
Definition sel_required (f : Field) : bool := required f.

(** ['input[type="checkbox"][required]'] *)
Definition sel_required_checkbox (f : Field) : bool :=
  String.eqb (tagName f) "INPUT" && String.eqb (type f) "checkbox" && required f.

(** A control: the inline [display], the label and the [disabled] flag. *)
Record Control := {
  display : string;
  textContent : string;
  disabled : bool
}.

Definition set_display (c : Control) (d : string) : Control :=
  {| display := d; textContent := textContent c; disabled := disabled c |}.

Definition set_textContent (c : Control) (t : string) : Control :=
  {| display := display c; textContent := t; disabled := disabled c |}.

Definition set_disabled (c : Control) (b : bool) : Control :=
  {| display := display c; textContent := textContent c; disabled := b |}.

(** The inline width of the progress bar: unset, or the number that
    was written in front of ['%']. *)
Inductive Width := WidthUnset | Percent (p : PrimFloat.float).

End Dom.

Import Js Dom.

(** ** Validation of one section (lines 125-167) *)

(** The callback handed to [requiredInputs.forEach]: it maintains
    [radioGroups] and, for a failing checkbox or an empty field, executes
    [return false] -- a return from the callback. *)
Definition validate_callback (input : Field) (radioGroups : gmap string bool)
  : gmap string bool * option bool :=
  if String.eqb (type input) "radio" then
    let name := name input in
    let radioGroups :=
      if negb (get_flag radioGroups name)
      then set_member radioGroups name false else radioGroups in
    let radioGroups :=
      if checked input then set_member radioGroups name true else radioGroups in
    (radioGroups, None)
  else if String.eqb (type input) "checkbox" then
    if negb (checked input) then (radioGroups, Some false) else (radioGroups, None)
  else
    if negb (truthy_string (trim (value input))) then (radioGroups, Some false)
    else (radioGroups, None).

(** The body of [validateSection] once [sections[index]] is an element. *)
Definition validate_element (section : Section) : bool :=
  let requiredInputs := querySelectorAll section sel_required in
  let radioGroups := forEach validate_callback requiredInputs ∅ in
  match for_of (map_to_list radioGroups).*1
          (fun group =>
             if negb (get_flag radioGroups group) then Some false else None) with
  | Some r => r
  | None =>
      let checkboxes := querySelectorAll section sel_required_checkbox in
      match for_of checkboxes
              (fun checkbox => if negb (checked checkbox) then Some false else None) with
      | Some r => r
      | None => true
      end
  end.

(** ** Page state, exceptions and the effect log *)

(** What the closure of the [DOMContentLoaded] listener holds, together
    with the two pieces of platform state the submit handler writes. *)
Record Page := {
  sections : list Section;
  currentSection : Z;
  prevBtn : Control;
  nextBtn : Control;
  submitBtn : Control;
  progressBar : Width;
  currentStepSpan : Z;
  totalStepsSpan : Z;
  sessionStorage : gmap string string;
  location : string
}.

(** [const totalSections = sections.length]; the node list is static, so
    the constant is the length of [sections] for the life of the page. *)
Definition totalSections (p : Page) : Z := Z.of_nat (length (sections p)).

Definition set_sections (p : Page) (x : list Section) : Page :=
  {| sections := x; currentSection := currentSection p; prevBtn := prevBtn p;
     nextBtn := nextBtn p; submitBtn := submitBtn p; progressBar := progressBar p;
     currentStepSpan := currentStepSpan p; totalStepsSpan := totalStepsSpan p;
     sessionStorage := sessionStorage p; location := location p |}.

Definition set_currentSection (p : Page) (x : Z) : Page :=
  {| sections := sections p; currentSection := x; prevBtn := prevBtn p;
     nextBtn := nextBtn p; submitBtn := submitBtn p; progressBar := progressBar p;
     currentStepSpan := currentStepSpan p; totalStepsSpan := totalStepsSpan p;
     sessionStorage := sessionStorage p; location := location p |}.

Definition set_prevBtn (p : Page) (x : Control) : Page :=
  {| sections := sections p; currentSection := currentSection p; prevBtn := x;
     nextBtn := nextBtn p; submitBtn := submitBtn p; progressBar := progressBar p;
     currentStepSpan := currentStepSpan p; totalStepsSpan := totalStepsSpan p;
     sessionStorage := sessionStorage p; location := location p |}.

Definition set_nextBtn (p : Page) (x : Control) : Page :=
  {| sections := sections p; currentSection := currentSection p; prevBtn := prevBtn p;
     nextBtn := x; submitBtn := submitBtn p; progressBar := progressBar p;
     currentStepSpan := currentStepSpan p; totalStepsSpan := totalStepsSpan p;
     sessionStorage := sessionStorage p; location := location p |}.

Definition set_submitBtn (p : Page) (x : Control) : Page :=
  {| sections := sections p; currentSection := currentSection p; prevBtn := prevBtn p;
     nextBtn := nextBtn p; submitBtn := x; progressBar := progressBar p;
     currentStepSpan := currentStepSpan p; totalStepsSpan := totalStepsSpan p;
     sessionStorage := sessionStorage p; location := location p |}.

Definition set_progressBar (p : Page) (x : Width) : Page :=
  {| sections := sections p; currentSection := currentSection p; prevBtn := prevBtn p;
     nextBtn := nextBtn p; submitBtn := submitBtn p; progressBar := x;
     currentStepSpan := currentStepSpan p; totalStepsSpan := totalStepsSpan p;
     sessionStorage := sessionStorage p; location := location p |}.

Definition set_currentStepSpan (p : Page) (x : Z) : Page :=
  {| sections := sections p; currentSection := currentSection p; prevBtn := prevBtn p;
     nextBtn := nextBtn p; submitBtn := submitBtn p; progressBar := progressBar p;
     currentStepSpan := x; totalStepsSpan := totalStepsSpan p;
     sessionStorage := sessionStorage p; location := location p |}.

Definition set_totalStepsSpan (p : Page) (x : Z) : Page :=
  {| sections := sections p; currentSection := currentSection p; prevBtn := prevBtn p;
     nextBtn := nextBtn p; submitBtn := submitBtn p; progressBar := progressBar p;
     currentStepSpan := currentStepSpan p; totalStepsSpan := x;
     sessionStorage := sessionStorage p; location := location p |}.

Definition set_sessionStorage (p : Page) (x : gmap string string) : Page :=
  {| sections := sections p; currentSection := currentSection p; prevBtn := prevBtn p;
     nextBtn := nextBtn p; submitBtn := submitBtn p; progressBar := progressBar p;
     currentStepSpan := currentStepSpan p; totalStepsSpan := totalStepsSpan p;
     sessionStorage := x; location := location p |}.

Definition set_location (p : Page) (x : string) : Page :=
  {| sections := sections p; currentSection := currentSection p; prevBtn := prevBtn p;
     nextBtn := nextBtn p; submitBtn := submitBtn p; progressBar := progressBar p;
     currentStepSpan := currentStepSpan p; totalStepsSpan := totalStepsSpan p;
     sessionStorage := sessionStorage p; location := x |}.

(** Values that can be thrown or be the reason of a rejected promise. *)
Inductive Exception :=
| TypeError                    (* a property read on [undefined] or [null] *)
| Rejected (reason : string)   (* [fetch] or [response.json()] rejected *)
| Error (message : string).    (* [new Error(message)] *)

Inductive Effect :=
| PreventDefault
| Alert (message : string)
| ConsoleError (label : string) (error : Exception)
| ScrollTo (top : Z) (behavior : string)
| Fetch (url method : string) (headers : list (string * string))
        (json_body : gmap string string)
| SetItem (key data : string)
| Navigate (href : string).

Inductive Completion (A : Type) :=
| Normal (a : A)
| Throw (e : Exception).
Arguments Normal {A} a.
Arguments Throw {A} e.

Record Outcome (A : Type) := {
  completion : Completion A;
  page : Page;
  effects : list Effect
}.
Arguments completion {A} o.
Arguments page {A} o.
Arguments effects {A} o.

(** A run of script code: from a page to a completion, the page it
    leaves and the effects it performed. *)
Definition M (A : Type) : Type := Page → Outcome A.

Definition ret {A : Type} (a : A) : M A :=
  fun p => {| completion := Normal a; page := p; effects := [] |}.

Definition bind {A B : Type} (m : M A) (k : A → M B) : M B :=
  fun p =>
    match m p with
    | {| completion := Normal a; page := p1; effects := log1 |} =>
        match k a p1 with
        | {| completion := c; page := p2; effects := log2 |} =>
            {| completion := c; page := p2; effects := log1 ++ log2 |}
        end
    | {| completion := Throw e; page := p1; effects := log1 |} =>
        {| completion := Throw e; page := p1; effects := log1 |}
    end.

Definition throw {A : Type} (e : Exception) : M A :=
  fun p => {| completion := Throw e; page := p; effects := [] |}.

(** [try { m } catch (e) { handler e }], also a promise chain that ends
    in [.catch(handler)]. *)
Definition try_catch {A : Type} (m : M A) (handler : Exception → M A) : M A :=
  fun p =>
    match m p with
    | {| completion := Normal a; page := p1; effects := log1 |} =>
        {| completion := Normal a; page := p1; effects := log1 |}
    | {| completion := Throw e; page := p1; effects := log1 |} =>
        match handler e p1 with
        | {| completion := c; page := p2; effects := log2 |} =>
            {| completion := c; page := p2; effects := log1 ++ log2 |}
        end
    end.

Definition get : M Page :=
  fun p => {| completion := Normal p; page := p; effects := [] |}.

Definition modify (f : Page → Page) : M unit :=
  fun p => {| completion := Normal tt; page := f p; effects := [] |}.

Definition emit (e : Effect) : M unit :=
  fun p => {| completion := Normal tt; page := p; effects := [e] |}.

Declare Scope js_scope.
Delimit Scope js_scope with js.
Notation "x <- m ;; k" := (bind m (fun x => k))
  (at level 100, m at next level, right associativity) : js_scope.
Notation "m ;; k" := (bind m (fun _ => k))
  (at level 100, right associativity) : js_scope.
Local Open Scope js_scope.

(** ** [showSection] (lines 90-123) *)

(** [((index + 1) / totalSections) * 100] in double arithmetic. *)
Definition progress (index totalSections : Z) : PrimFloat.float :=
  PrimFloat.mul (PrimFloat.div (to_double (index + 1)) (to_double totalSections))
                (to_double 100).
Arguments progress : simpl never.

(** [section.classList.remove('active')] *)
Definition deactivate (section : Section) : Section :=
  set_classList section (remove "active" (classList section)).

(** [section.classList.add('active')] *)
Definition activate (section : Section) : Section :=
  set_classList section (add "active" (classList section)).

Definition showSection (index : Z) : M unit :=
  (* sections.forEach(section => section.classList.remove('active')) *)
  modify (fun p => set_sections p (deactivate <$> sections p)) ;;
  (* sections[index].classList.add('active'): the element is shared
     with the node list, so the list sees the new token *)
  p <- get ;;
  match item (sections p) index with
  | None => throw TypeError
  | Some section =>
      modify (fun p =>
        set_sections p (<[Z.to_nat index := activate section]> (sections p)))
  end ;;
  (* progressBar.style.width = ((index + 1) / totalSections) * 100 + '%' *)
  modify (fun p => set_progressBar p (Percent (progress index (totalSections p)))) ;;
  (* currentStepSpan.textContent = index + 1 *)
  modify (fun p => set_currentStepSpan p (index + 1)) ;;
  modify (fun p =>
    set_prevBtn p
      (set_display (prevBtn p) (if Z.eqb index 0 then "none" else "inline-block"))) ;;
  p <- get ;;
  (if Z.eqb index (totalSections p - 1) then
     modify (fun p => set_nextBtn p (set_display (nextBtn p) "none")) ;;
     modify (fun p => set_submitBtn p (set_display (submitBtn p) "inline-block"))
   else
     modify (fun p => set_nextBtn p (set_display (nextBtn p) "inline-block")) ;;
     modify (fun p => set_submitBtn p (set_display (submitBtn p) "none"))) ;;
  emit (ScrollTo 0 "smooth").

Arguments showSection : simpl never.

(** ** [validateSection] (lines 125-167) *)

Definition validateSection (index : Z) : M bool :=
  p <- get ;;
  match item (sections p) index with
  | None => throw TypeError   (* [section.querySelectorAll] on [undefined] *)
  | Some section => ret (validate_element section)
  end.

Arguments validateSection : simpl never.

(** ** Navigation handlers (lines 22-39) *)

Definition nextBtn_click : M unit :=
  p <- get ;;
  valid <- validateSection (currentSection p) ;;
  if valid then
    (* currentSection++: exact, from an index validateSection has read *)
    modify (fun p => set_currentSection p (currentSection p + 1)) ;;
    p <- get ;;
    if Z.ltb (currentSection p) (totalSections p)
    then showSection (currentSection p)
    else ret tt
  else
    emit (Alert "Please answer all required questions before proceeding.").

Definition prevBtn_click : M unit :=
  modify (fun p => set_currentSection p (decrement (currentSection p))) ;;
  p <- get ;;
  if Z.leb 0 (currentSection p)
  then showSection (currentSection p)
  else ret tt.

(** The listener body up to the registration of the handlers
    (lines 12-19). *)
Definition DOMContentLoaded : M unit :=
  modify (fun p => set_currentSection p 0) ;;
  modify (fun p => set_totalStepsSpan p (totalSections p)) ;;
  p <- get ;;
  showSection (currentSection p).

(** ** JSON values as [response.json()] delivers them *)

Module Json.

(** A number is carried by its canonical decimal rendering (what
    [String(x)] and [JSON.stringify(x)] print), e.g. ["0.8"]; an
    object by its own properties in enumeration order, names distinct. *)
#[local] Unset Elimination Schemes.
Inductive json :=
| JNull
| JBool (b : bool)
| JNumber (rendering : string)
| JString (s : string)
| JArray (elements : list json)
| JObject (properties : list (string * json)).
#[local] Set Elimination Schemes.

Fixpoint assoc (name : string) (properties : list (string * json)) : option json :=
  match properties with
  | [] => None
  | (k, v) :: rest => if String.eqb k name then Some v else assoc name rest
  end.

(** [v.name] for a name that no built-in prototype defines (such as
    [success] and [error]): the own property of an object, [undefined]
    on any other value, and a TypeError on [null]. *)
Definition member (name : string) (v : json) : Completion (option json) :=
  match v with
  | JNull => Throw TypeError
  | JObject properties => Normal (assoc name properties)
  | _ => Normal None
  end.

(** ToBoolean; [None] is [undefined]. *)
Definition truthy (v : option json) : bool :=
  match v with
  | None => false
  | Some JNull => false
  | Some (JBool b) => b
  | Some (JNumber rendering) => negb (String.eqb rendering "0")
  | Some (JString s) => truthy_string s
  | Some (JArray _) => true
  | Some (JObject _) => true
  end.

(** ToString, as [new Error(v)] applies it to its argument; [None] when
    the conversion throws a TypeError. An array joins its elements, with
    nothing for [null]. An object converts through [toString]: a parsed
    object inherits the one that answers [[object Object]], unless it
    has a member of that name, which is no function, and then no
    conversion is left. *)
Fixpoint ToString (v : json) : option string :=
  match v with
  | JNull => Some "null"
  | JBool true => Some "true"
  | JBool false => Some "false"
  | JNumber rendering => Some rendering
  | JString s => Some s
  | JArray elements =>
      option_map (String.concat ",")
        ((fix each (xs : list json) : option (list string) :=
            match xs with
            | [] => Some []
            | x :: rest =>
                match match x with
                      | JNull => Some EmptyString
                      | _ => ToString x
                      end, each rest with
                | Some s, Some ss => Some (s :: ss)
                | _, _ => None
                end
            end) elements)
  | JObject properties =>
      match assoc "toString" properties with
      | Some _ => None
      | None => Some "[object Object]"
      end
  end.

(** [v || fallback], converted to a string. *)
Definition or_else (v : option json) (fallback : string) : option string :=
  match v with
  | Some x => if truthy v then ToString x else Some fallback
  | None => Some fallback
  end.

Definition chr (n : nat) : string := String (ascii_of_nat n) EmptyString.

Definition hex_digit (n : nat) : string :=
  match String.get n "0123456789abcdef" with
  | Some c => String c EmptyString
  | None => EmptyString
  end.

(** One code unit inside a JSON string literal. *)
Definition escape (c : ascii) : string :=
  let n := nat_of_ascii c in
  if Nat.eqb n 8 then chr 92 +:+ "b"
  else if Nat.eqb n 9 then chr 92 +:+ "t"
  else if Nat.eqb n 10 then chr 92 +:+ "n"
  else if Nat.eqb n 12 then chr 92 +:+ "f"
  else if Nat.eqb n 13 then chr 92 +:+ "r"
  else if Nat.eqb n 34 then chr 92 +:+ chr 34
  else if Nat.eqb n 92 then chr 92 +:+ chr 92
  else if Nat.ltb n 32 then
    chr 92 +:+ "u00" +:+ hex_digit (Nat.div n 16) +:+ hex_digit (Nat.modulo n 16)
  else String c EmptyString.

Fixpoint escape_all (s : string) : string :=
  match s with
  | EmptyString => EmptyString
  | String c s' => escape c +:+ escape_all s'
  end.

Definition quote (s : string) : string := chr 34 +:+ escape_all s +:+ chr 34.

(** [JSON.stringify(v)] without indentation. *)
Fixpoint stringify (v : json) : string :=
  match v with
  | JNull => "null"
  | JBool true => "true"
  | JBool false => "false"
  | JNumber rendering => rendering
  | JString s => quote s
  | JArray elements =>
      "[" +:+ String.concat "," (List.map stringify elements) +:+ "]"
  | JObject properties =>
      "{" +:+ String.concat ","
                (List.map (fun kv => quote (fst kv) +:+ ":" +:+ stringify (snd kv))
                          properties)
          +:+ "}"
  end.

End Json.

Import Json.

(** ** Form submission (lines 42-88) *)

(** The controls of [form], in tree order: the fields of its sections. *)
Definition form (p : Page) : list Field := flat_map inputs (sections p).

(** [new FormData(form)]: one entry per control in tree order; a control
    without a name, and a checkbox or radio button that is not checked,
    has no entry. *)
Definition FormData (controls : list Field) : list (string * string) :=
  flat_map
    (fun f =>
       if negb (truthy_string (name f)) then []
       else if (String.eqb (type f) "checkbox" || String.eqb (type f) "radio")
               && negb (checked f) then []
       else [(name f, value f)])
    controls.

(** [for (let [key, value] of formData.entries()) data[key] = value] *)
Definition collect (entries : list (string * string)) : gmap string string :=
  fold_left (fun data entry => set_member data (fst entry) (snd entry)) entries ∅.

(** How the request issued by [fetch] ends. *)
Inductive Response :=
| FetchRejected (reason : string)    (* transport failure *)
| BodyRejected (reason : string)     (* [response.json()] cannot parse the body *)
| Body (result : json).              (* the parsed body *)

Definition lift {A : Type} (c : Completion A) : M A :=
  fun p => {| completion := c; page := p; effects := [] |}.

(** [fetch(...).then(response => response.json())] *)
Definition fetch_json (response : Response) : M json :=
  match response with
  | FetchRejected reason => throw (Rejected reason)
  | BodyRejected reason => throw (Rejected reason)
  | Body result => ret result
  end.

(** The second [.then] callback (lines 68-78). *)
Definition on_result (result : json) : M unit :=
  success <- lift (member "success" result) ;;
  if truthy success then
    emit (SetItem "riskResults" (stringify result)) ;;
    modify (fun p =>
      set_sessionStorage p (<["riskResults" := stringify result]> (sessionStorage p))) ;;
    emit (Navigate "/results") ;;
    modify (fun p => set_location p "/results")
  else
    error <- lift (member "error" result) ;;
    (* throw new Error(result.error || 'Prediction failed') *)
    match or_else error "Prediction failed" with
    | Some message => throw (Error message)
    | None => throw TypeError
    end.

(** The [.catch] callback (lines 79-84). *)
Definition on_error (error : Exception) : M unit :=
  emit (ConsoleError "Error:" error) ;;
  emit (Alert "An error occurred while processing your assessment. Please try again.") ;;
  modify (fun p => set_submitBtn p (set_textContent (submitBtn p) "Submit Assessment")) ;;
  modify (fun p => set_submitBtn p (set_disabled (submitBtn p) false)).

(** The promise chain of lines 60-84, run once the request has ended. *)
Definition settle (response : Response) : M unit :=
  try_catch (result <- fetch_json response ;; on_result result) on_error.

(** The synchronous part of the submit listener (lines 43-66); it
    answers whether the request was issued. *)
Definition form_submit_begin : M bool :=
  emit PreventDefault ;;
  p <- get ;;
  valid <- validateSection (currentSection p) ;;
  if valid then
    modify (fun p => set_submitBtn p (set_textContent (submitBtn p) "Processing...")) ;;
    modify (fun p => set_submitBtn p (set_disabled (submitBtn p) true)) ;;
    p <- get ;;
    let formData := FormData (form p) in
    let data := collect formData in
    emit (Fetch "/predict" "POST" [("Content-Type", "application/json")] data) ;;
    ret true
  else
    emit (Alert "Please complete all required fields and agree to the terms.") ;;
    ret false.

(** A whole submission: the listener, then the chain on [response]. *)
Definition form_submit (response : Response) : M unit :=
  issued <- form_submit_begin ;;
  if issued then settle response else ret tt.

(** * Notions used in the statements *)

(** ** Radio groups *)

Definition is_radio (f : Field) : bool := String.eqb (type f) "radio".

Definition in_group (group : string) (f : Field) : bool :=
  is_radio f && String.eqb (name f) group.

(** What [radioGroups] holds under [group] once the callback has run
    over [fields]. A name that [Object.prototype] defines reads as
    truthy from the start, so [false] is never stored under it; it gets
    the member [true] from a checked button, unless it is [__proto__],
    which never becomes a member. Any other name gets a member with the
    first button of the group, [true] once a button is checked. *)
Definition group_state (fields : list Field) (group : string) : option bool :=
  if inherited group then
    if existsb (fun f => in_group group f && checked f) fields
       && negb (String.eqb group "__proto__")
    then Some true else None
  else if existsb (in_group group) fields
       then Some (existsb (fun f => in_group group f && checked f) fields)
       else None.

(** ** Serialisation, in the specification's words *)

(** To compare with [collect]: among the entries that carry [key], the
    last one in form order gives the value; without such an entry there
    is no key. *)
Fixpoint last_wins (key : string) (entries : list (string * string)) : option string :=
  match entries with
  | [] => None
  | entry :: rest =>
      match last_wins key rest with
      | Some v => Some v
      | None => if String.eqb (fst entry) key then Some (snd entry) else None
      end
  end.

Definition unchecked_checkbox (f : Field) : bool :=
  String.eqb (type f) "checkbox" && negb (checked f).

(** A control is submitted when it has a name and is not a checkbox or
    radio button left unticked ... *)
Definition submitted (f : Field) : bool :=
  truthy_string (name f)
  && negb ((String.eqb (type f) "checkbox" || String.eqb (type f) "radio")
           && negb (checked f)).

(** ... and among the submitted controls called [key] the last one in
    form order gives the value. *)
Fixpoint last_submitted (key : string) (controls : list Field) : option string :=
  match controls with
  | [] => None
  | f :: rest =>
      match last_submitted key rest with
      | Some v => Some v
      | None => if String.eqb (name f) key && submitted f then Some (value f) else None
      end
  end.

(** ** The submit control and the log around a request *)

(** The submit control while the request is in flight. *)
Definition busy (c : Control) : Control :=
  {| display := display c; textContent := "Processing..."; disabled := true |}.

(** The submit control after the [.catch] callback. *)
Definition released (c : Control) : Control :=
  {| display := display c; textContent := "Submit Assessment"; disabled := false |}.

Definition request (p : Page) : Effect :=
  Fetch "/predict" "POST" [("Content-Type", "application/json")]
        (collect (FormData (form p))).

(** The page and the effects the [.catch] callback leaves when the chain
    fails with [error]. *)
Definition caught (error : Exception) (p : Page) : Outcome unit :=
  {| completion := Normal tt;
     page := set_submitBtn p (released (submitBtn p));
     effects :=
       [ConsoleError "Error:" error;
        Alert "An error occurred while processing your assessment. Please try again."] |}.

(** The messages shown in blocking dialogs, in order. *)
Definition alerts (log : list Effect) : list string :=
  flat_map (fun e => match e with Alert message => [message] | _ => [] end) log.

(** ** Sample pages and responses *)

Definition field (k : FieldKind) (n v : string) (c r : bool) : Field :=
  {| kind := k; name := n; value := v; checked := c; required := r |}.

Definition control (label : string) : Control :=
  {| display := EmptyString; textContent := label; disabled := false |}.

(** A page as the template delivers it, before the script has run. *)
Definition template (segments : list (list Field)) : Page :=
  {| sections :=
       (fun fields => {| classList := ["form-section"]; inputs := fields |}) <$> segments;
     currentSection := 0;
     prevBtn := control "Previous";
     nextBtn := control "Next";
     submitBtn := control "Submit Assessment";
     progressBar := WidthUnset;
     currentStepSpan := 0;
     totalStepsSpan := 0;
     sessionStorage := ∅;
     location := "/questionnaire" |}.

(** The page once the listener has run. *)
Definition loaded (segments : list (list Field)) : Page :=
  page (DOMContentLoaded (template segments)).

(** One section whose only field is a required text input left blank. *)
Definition blank_age : list (list Field) :=
  [[field Text "age" "   " false true]].

(** Two sections: an age, then a risk group and an optional box left
    unticked. *)
Definition intake : list (list Field) :=
  [[field Text "age" "34" false true];
   [field Radio "riskGroup" "low" false true;
    field Radio "riskGroup" "high" true true;
    field Checkbox "newsletter" "on" false false]].

(** [intake] on its last section. *)
Definition intake_last : Page := page (nextBtn_click (loaded intake)).

(** The same page when the template labels its submit control [Send]. *)
Definition relabelled : Page :=
  set_submitBtn intake_last (set_textContent (submitBtn intake_last) "Send").

(** A form with an age and two controls named [__proto__]. *)
Definition prototype_named : list Field :=
  [field Text "age" "34" false false;
   field Text "__proto__" "a" false false;
   field Text "__proto__" "b" false false].

(** The responses of the specification's examples. *)
Definition scored : json :=
  JObject [("success", JBool true); ("result", JObject [("score", JNumber "0.8")])].

Definition bad_input : json :=
  JObject [("success", JBool false); ("error", JString "bad input")].

(** One section holding a required consent box left unticked. *)
Definition consent : list (list Field) :=
  [[field Checkbox "terms" "on" false true]].

(** Two sections without any required field. *)
Definition remarks : list (list Field) :=
  [[field Text "notes" EmptyString false false];
   [field Checkbox "newsletter" "on" false false]].

(** ** Interaction through the visible controls *)

(** A control can be clicked unless [showSection] has hidden it. *)
Definition clickable (c : Control) : bool := negb (String.eqb (display c) "none").

(** One interaction: a click on a visible navigation control, or
    answering questions, which changes fields and nothing else. *)
Inductive user_step : Page → Page → Prop :=
| step_next (p : Page) :
    clickable (nextBtn p) = true → user_step p (page (nextBtn_click p))
| step_prev (p : Page) :
    clickable (prevBtn p) = true → user_step p (page (prevBtn_click p))
| step_answer (p : Page) (answered : list Section) :
    classList <$> answered = classList <$> sections p →
    user_step p (set_sections p answered).

(** The pages that follow a successful load of [p0]. *)
Inductive reachable (p0 : Page) : Page → Prop :=
| reach_load :
    completion (DOMContentLoaded p0) = Normal tt →
    reachable p0 (page (DOMContentLoaded p0))
| reach_step (p q : Page) :
    reachable p0 p → user_step p q → reachable p0 q.

(** The index is in range, and a navigation control that can be clicked
    has a section to go to. *)
Definition in_bounds (p : Page) : Prop :=
  0 ≤ currentSection p < totalSections p
  ∧ (clickable (prevBtn p) = true → currentSection p ≠ 0)
  ∧ (clickable (nextBtn p) = true → currentSection p ≠ totalSections p - 1).

(** * Further notions *)

(** ** Fields that differ in their values only *)

Definition set_value (f : Field) (v : string) : Field :=
  {| kind := kind f; name := name f; value := v; checked := checked f;
     required := required f |}.

(** The section with the value of every field [f] replaced by [typed f]. *)
Definition retyped (typed : Field → string) (section : Section) : Section :=
  {| classList := classList section;
     inputs := (fun f => set_value f (typed f)) <$> inputs section |}.

(** A group in which only the first button carries [required], and the
    user picked the second. *)
Definition smoker : list (list Field) :=
  [[field Radio "smoker" "yes" false true;
    field Radio "smoker" "no" true false]].

(** ** Pages that show their current section *)

(** What [showSection (currentSection p)] establishes: the index is in
    range, the section at the index is the one marked active, and the
    indicators and controls agree with the index. *)
Definition rendered (p : Page) : Prop :=
  0 ≤ currentSection p < totalSections p
  ∧ (∀ j section, item (sections p) j = Some section →
       contains "active" (classList section) = Z.eqb j (currentSection p))
  ∧ progressBar p = Percent (progress (currentSection p) (totalSections p))
  ∧ currentStepSpan p = currentSection p + 1
  ∧ display (prevBtn p)
    = (if Z.eqb (currentSection p) 0 then "none" else "inline-block")
  ∧ display (nextBtn p)
    = (if Z.eqb (currentSection p) (totalSections p - 1) then "none" else "inline-block")
  ∧ display (submitBtn p)
    = (if Z.eqb (currentSection p) (totalSections p - 1) then "inline-block" else "none").

(** ** Events *)

(** The events the script listens to; a submission comes with the way
    its request ends. *)
Inductive Event :=
| NextClick
| PrevClick
| SubmitForm (response : Response).

Definition handle (e : Event) : M unit :=
  match e with
  | NextClick => nextBtn_click
  | PrevClick => prevBtn_click
  | SubmitForm response => form_submit response
  end.

(** The page after a series of events. A listener that throws ends
    there; the page keeps what the listener had done and the next event
    is dispatched as usual. *)
Definition dispatch (events : list Event) (p : Page) : Page :=
  fold_left (fun q e => page (handle e q)) events p.


(** ** Requests in a log *)

(** The requests a log holds, in order. *)
Definition fetches (log : list Effect) : list Effect :=
  List.filter (fun e => match e with Fetch _ _ _ _ => true | _ => false end) log.

(** An empty response object. *)
Definition no_members : json := JObject [].

(** ** Visual feedback for the chosen option (lines 169-189) *)

(** The two inline style properties the listener writes. *)
Record Style := {
  borderColor : string;
  backgroundColor : string
}.

(** An [input] or [select] element of the document, with the position
    in [radioOptions] of what [closest('.radio-option')] finds from it,
    if anything. *)
Record InputElement := {
  element : Field;
  closest_option : option nat
}.

(** Both properties set to the empty string. *)
Definition unstyled : Style :=
  {| borderColor := EmptyString; backgroundColor := EmptyString |}.

Definition chosen : Style :=
  {| borderColor := "var(--primary-green)"; backgroundColor := "var(--light-green)" |}.

(** A name that is not empty -- the [name] of an element without the
    attribute is empty, and no attribute selector finds it -- and that a
    double-quoted CSS string takes as it stands: no quote, backslash,
    line break or NUL in it. *)
Definition literal (s : string) : bool :=
  truthy_string s
  && forallb (fun c => negb (existsb (Nat.eqb (nat_of_ascii c)) [0; 10; 12; 13; 34; 92]%nat))
             (list_ascii_of_string s).

(** [document.querySelectorAll(`input[name="${groupName}"]`)] for a
    literal [groupName]: the [input] elements of that name, in document
    order. For any other name the selector text is not the name; it is
    left out of the model ([None]). *)
Definition inputs_named (groupName : string) (document : list InputElement)
  : option (list InputElement) :=
  if literal groupName then
    Some (List.filter
            (fun e => String.eqb (tagName (element e)) "INPUT"
                      && String.eqb (name (element e)) groupName)
            document)
  else None.

(** [groupOptions.forEach(opt => { ... })]: the wrapper of each element
    has its two properties emptied; an element outside any wrapper makes
    [closest] return [null], and the loop ends in a TypeError. The
    styles are those of [radioOptions], by position. *)
Fixpoint clear_group (groupOptions : list InputElement) (styles : list Style)
  : Completion unit * list Style :=
  match groupOptions with
  | [] => (Normal tt, styles)
  | opt :: rest =>
      match closest_option opt with
      | None => (Throw TypeError, styles)
      | Some wrapper => clear_group rest (<[wrapper := unstyled]> styles)
      end
  end.

(** The [change] listener registered for [option], the element at
    position [radioOption] of [radioOptions], on [this], its radio
    button. *)
Definition radio_change (document : list InputElement) (radioOption : nat) (this : Field)
           (styles : list Style) : option (Completion unit * list Style)%type :=
  match inputs_named (name this) document with
  | None => None
  | Some groupOptions =>
      Some (match clear_group groupOptions styles with
            | (Normal _, cleared) =>
                (Normal tt,
                 if checked this then <[radioOption := chosen]> cleared else cleared)
            | (Throw e, partly) => (Throw e, partly)
            end)
  end.

(** Whether [wrapper] encloses an [input] element called [groupName]. *)
Definition wraps (groupName : string) (document : list InputElement) (wrapper : nat) : bool :=
  existsb
    (fun e => String.eqb (tagName (element e)) "INPUT"
              && String.eqb (name (element e)) groupName
              && match closest_option e with
                 | Some w => Nat.eqb w wrapper
                 | None => false
                 end)
    document.

(** Three options: the two buttons of a group, the first highlighted
    from an earlier choice, and a button of another group. *)
Definition three_options : list InputElement :=
  [{| element := field Radio "riskGroup" "low" false true; closest_option := Some 0%nat |};
   {| element := field Radio "riskGroup" "high" true true; closest_option := Some 1%nat |};
   {| element := field Radio "smoker" "yes" true true; closest_option := Some 2%nat |}].

Definition three_styles : list Style := [chosen; unstyled; chosen].

(** The same, with a hidden input of the group's name outside the
    options. *)
Definition stray_input : list InputElement :=
  {| element := field Text "riskGroup" "unset" false false; closest_option := None |}
  :: three_options.


(** * Properties *)

(** ** Class tokens *)

Lemma contains_remove (token : string) (tokens : list string) :
  contains token (remove token tokens) = false.
Proof.
  unfold contains, remove.
  induction tokens as [|t tokens IH]; simpl; [reflexivity|].
  destruct (String.eqb_spec t token) as [->|Hne]; simpl; [exact IH|].
  rewrite IH, orb_false_r.
  apply String.eqb_neq. congruence.
Qed.

Lemma contains_app (token : string) (xs ys : list string) :
  contains token (xs ++ ys) = contains token xs || contains token ys.
Proof. unfold contains. apply existsb_app. Qed.

Lemma contains_add (token : string) (tokens : list string) :
  contains token (add token tokens) = true.
Proof.
  unfold add. destruct (contains token tokens) eqn:E; [exact E|].
  rewrite contains_app. simpl. rewrite String.eqb_refl. apply orb_true_r.
Qed.

(** ** Array access *)

Lemma item_Some {A : Type} (xs : list A) (i : Z) (x : A) :
  item xs i = Some x → 0 ≤ i < Z.of_nat (length xs).
Proof.
  unfold item. destruct (Z.ltb_spec i 0) as [|Hi]; [discriminate|].
  intros H%lookup_lt_Some. lia.
Qed.

Lemma item_in_range {A : Type} (xs : list A) (i : Z) :
  0 ≤ i < Z.of_nat (length xs) → ∃ x, item xs i = Some x.
Proof.
  intros [H0 Hn]. unfold item.
  destruct (Z.ltb_spec i 0) as [|_]; [lia|].
  apply lookup_lt_is_Some. lia.
Qed.

Lemma item_fmap {A B : Type} (f : A → B) (xs : list A) (i : Z) :
  item (f <$> xs) i = f <$> item xs i.
Proof. unfold item. destruct (Z.ltb i 0); [reflexivity|apply list_lookup_fmap]. Qed.

Lemma item_insert {A : Type} (xs : list A) (i j : Z) (x : A) :
  0 ≤ i < Z.of_nat (length xs) →
  item (<[Z.to_nat i := x]> xs) j = if Z.eqb j i then Some x else item xs j.
Proof.
  intros [H0 Hn]. unfold item.
  destruct (Z.eqb_spec j i) as [->|Hne].
  - destruct (Z.ltb_spec i 0); [lia|]. apply list_lookup_insert_eq. lia.
  - destruct (Z.ltb_spec j 0); [reflexivity|].
    apply list_lookup_insert_ne. lia.
Qed.

(** ** What [showSection] computes on an index in range *)

Lemma showSection_in_range (p : Page) (index : Z) (section : Section) :
  item (sections p) index = Some section →
  showSection index p =
  {| completion := Normal tt;
     page :=
       {| sections :=
            <[Z.to_nat index := activate (deactivate section)]> (deactivate <$> sections p);
          currentSection := currentSection p;
          prevBtn :=
            set_display (prevBtn p) (if Z.eqb index 0 then "none" else "inline-block");
          nextBtn :=
            set_display (nextBtn p)
              (if Z.eqb index (totalSections p - 1) then "none" else "inline-block");
          submitBtn :=
            set_display (submitBtn p)
              (if Z.eqb index (totalSections p - 1) then "inline-block" else "none");
          progressBar := Percent (progress index (totalSections p));
          currentStepSpan := index + 1;
          totalStepsSpan := totalStepsSpan p;
          sessionStorage := sessionStorage p;
          location := location p |};
     effects := [ScrollTo 0 "smooth"] |}.
Proof.
  intros Hitem.
  unfold showSection, bind, modify, get, emit. cbn.
  rewrite item_fmap, Hitem. cbn.
  unfold totalSections. cbn. rewrite length_insert, length_fmap.
  destruct (Z.eqb index (Z.of_nat (length (sections p)) - 1)); reflexivity.
Qed.

Lemma showSection_keeps_index (p : Page) (index : Z) :
  currentSection (page (showSection index p)) = currentSection p.
Proof.
  destruct (item (sections p) index) as [section|] eqn:Hitem.
  - rewrite (showSection_in_range p index section Hitem). reflexivity.
  - unfold showSection, bind, modify, get, throw. cbn.
    rewrite item_fmap, Hitem. reflexivity.
Qed.

(** ** [validateSection] reads the page and leaves it alone *)

Lemma validateSection_run (p : Page) (index : Z) :
  validateSection index p =
  {| completion :=
       match item (sections p) index with
       | Some section => Normal (validate_element section)
       | None => Throw TypeError
       end;
     page := p;
     effects := [] |}.
Proof.
  unfold validateSection, bind, get, throw, ret. cbn.
  destruct (item (sections p) index); reflexivity.
Qed.

Lemma validateSection_returns (p : Page) (index : Z) (b : bool) :
  completion (validateSection index p) = Normal b →
  ∃ section, item (sections p) index = Some section ∧ validate_element section = b.
Proof.
  rewrite validateSection_run. cbn.
  destruct (item (sections p) index) as [section|]; [|discriminate].
  intros [= <-]. eauto.
Qed.

(** ** The navigation handlers, case by case *)

Lemma nextBtn_click_rejected (p : Page) :
  completion (validateSection (currentSection p) p) = Normal false →
  nextBtn_click p =
  {| completion := Normal tt;
     page := p;
     effects := [Alert "Please answer all required questions before proceeding."] |}.
Proof.
  intros Hv. unfold nextBtn_click, bind, get, emit.
  cbn. rewrite validateSection_run in *. cbn in *.
  destruct (item (sections p) (currentSection p)); [|discriminate].
  injection Hv as ->. reflexivity.
Qed.

Lemma nextBtn_click_accepted (p : Page) :
  completion (validateSection (currentSection p) p) = Normal true →
  let p' := set_currentSection p (currentSection p + 1) in
  nextBtn_click p =
  if Z.ltb (currentSection p + 1) (totalSections p)
  then showSection (currentSection p + 1) p'
  else {| completion := Normal tt; page := p'; effects := [] |}.
Proof.
  intros Hv. unfold nextBtn_click, bind, get, modify, ret.
  rewrite validateSection_run in *. cbn in *.
  destruct (item (sections p) (currentSection p)); [|discriminate].
  injection Hv as ->. cbn.
  change (totalSections (set_currentSection p (currentSection p + 1)))
    with (totalSections p).
  destruct (Z.ltb (currentSection p + 1) (totalSections p)); [|reflexivity].
  destruct (showSection _ _) as [[[]|e] q log]; reflexivity.
Qed.

Lemma nextBtn_click_increments (p : Page) :
  completion (validateSection (currentSection p) p) = Normal true →
  currentSection (page (nextBtn_click p)) = currentSection p + 1.
Proof.
  intros Hv. rewrite (nextBtn_click_accepted p Hv).
  destruct (Z.ltb (currentSection p + 1) (totalSections p)).
  - exact (showSection_keeps_index (set_currentSection p (currentSection p + 1)) _).
  - reflexivity.
Qed.

Lemma decrement_exact (x : Z) : - 2 ^ 53 < x → decrement x = x - 1.
Proof.
  intros Hx. unfold decrement.
  destruct (Z.eqb_spec x (- 2 ^ 53)); [lia|reflexivity].
Qed.

Lemma decrement_le (x : Z) : (decrement x ≤ x)%Z.
Proof. unfold decrement. destruct (Z.eqb x (- 2 ^ 53)); lia. Qed.

Lemma prevBtn_click_run (p : Page) :
  let p' := set_currentSection p (decrement (currentSection p)) in
  prevBtn_click p =
  if Z.leb 0 (decrement (currentSection p))
  then showSection (decrement (currentSection p)) p'
  else {| completion := Normal tt; page := p'; effects := [] |}.
Proof.
  unfold prevBtn_click, bind, get, modify, ret. cbn.
  destruct (Z.leb 0 (decrement (currentSection p))); [|reflexivity].
  destruct (showSection _ _) as [[[]|e] q log]; reflexivity.
Qed.

Lemma prevBtn_click_run_exact (p : Page) :
  - 2 ^ 53 < currentSection p →
  let p' := set_currentSection p (currentSection p - 1) in
  prevBtn_click p =
  if Z.leb 0 (currentSection p - 1)
  then showSection (currentSection p - 1) p'
  else {| completion := Normal tt; page := p'; effects := [] |}.
Proof.
  intros Hsafe. rewrite prevBtn_click_run. cbv zeta.
  rewrite (decrement_exact _ Hsafe). reflexivity.
Qed.

Lemma prevBtn_click_decrements (p : Page) :
  currentSection (page (prevBtn_click p)) = decrement (currentSection p).
Proof.
  rewrite prevBtn_click_run. cbv zeta.
  destruct (Z.leb 0 (decrement (currentSection p))).
  - exact (showSection_keeps_index (set_currentSection p (decrement (currentSection p))) _).
  - reflexivity.
Qed.

(** ** What [validateSection] decides *)

Lemma for_of_guard {A : Type} (failing : A → bool) (xs : list A) :
  for_of xs (fun x => if failing x then Some false else None) =
  if existsb failing xs then Some false else None.
Proof.
  induction xs as [|x xs IH]; simpl; [reflexivity|].
  destruct (failing x); simpl; [reflexivity|exact IH].
Qed.

Lemma is_radio_kind (f : Field) : is_radio f = true ↔ kind f = Radio.
Proof. unfold is_radio, type. destruct (kind f); simpl; split; congruence. Qed.

Lemma sel_required_checkbox_kind (f : Field) :
  sel_required_checkbox f = true ↔ kind f = Checkbox ∧ required f = true.
Proof.
  unfold sel_required_checkbox, tagName, type.
  destruct (kind f), (required f); simpl; split; intros; intuition congruence.
Qed.

Lemma set_member_lookup {V : Type} (obj : gmap string V) (name key : string) (v : V) :
  set_member obj name v !! key
  = if String.eqb name "__proto__" then obj !! key
    else if String.eqb name key then Some v else obj !! key.
Proof.
  unfold set_member. destruct (String.eqb name "__proto__"); [reflexivity|].
  destruct (String.eqb_spec name key) as [->|Hne].
  - apply lookup_insert_eq.
  - apply lookup_insert_ne, Hne.
Qed.

Lemma inherited_proto (name : string) :
  String.eqb name "__proto__" = true → inherited name = true.
Proof. intros ->%String.eqb_eq. reflexivity. Qed.

Lemma existsb_andb_false {A : Type} (p q : A → bool) (xs : list A) :
  existsb p xs = false → existsb (fun x => p x && q x) xs = false.
Proof.
  induction xs as [|x xs IH]; simpl; [reflexivity|].
  intros [Hx Hxs]%orb_false_iff. rewrite Hx, (IH Hxs). reflexivity.
Qed.

Lemma in_group_other (f : Field) (group : string) :
  String.eqb (name f) group = false → in_group group f = false.
Proof. intros H. unfold in_group. rewrite H. apply andb_false_r. Qed.

Lemma group_state_snoc_other (fields : list Field) (f : Field) (group : string) :
  in_group group f = false →
  group_state (fields ++ [f]) group = group_state fields group.
Proof.
  intros Hout. unfold group_state. rewrite !existsb_app. simpl.
  rewrite Hout. simpl. rewrite !orb_false_r. reflexivity.
Qed.

(** The map the callback builds, member by member: the returned [false]
    leaves no trace in it. *)
Lemma radioGroups_lookup (fields : list Field) (group : string) :
  forEach validate_callback fields ∅ !! group = group_state fields group.
Proof.
  revert group. induction fields as [|f fields IH] using rev_ind; intros group.
  - unfold group_state. destruct (inherited group); cbn; apply lookup_empty.
  - unfold forEach in *. rewrite fold_left_app. cbn [fold_left].
    set (radioGroups := fold_left _ fields ∅) in *.
    unfold validate_callback.
    destruct (String.eqb (type f) "radio") eqn:Hradio.
    + cbn [fst].
      destruct (String.eqb (name f) group) eqn:Hname.
      * apply String.eqb_eq in Hname. subst group.
        assert (Hin : in_group (name f) f = true)
          by (unfold in_group, is_radio; rewrite Hradio, String.eqb_refl; reflexivity).
        assert (Hsnoc : group_state (fields ++ [f]) (name f)
                        = if inherited (name f)
                          then if (existsb (fun f0 => in_group (name f) f0 && checked f0) fields
                                   || checked f)
                                  && negb (String.eqb (name f) "__proto__")
                               then Some true else None
                          else Some (existsb (fun f0 => in_group (name f) f0 && checked f0) fields
                                     || checked f)).
        { unfold group_state. rewrite !existsb_app. cbn [existsb]. rewrite Hin.
          cbn [andb]. rewrite !orb_false_r, orb_true_r. reflexivity. }
        rewrite Hsnoc. clear Hsnoc.
        pose proof (IH (name f)) as Hold.
        pose proof (inherited_proto (name f)) as Hsetter.
        cbv zeta. unfold get_flag. rewrite IH. clearbody radioGroups.
        unfold group_state in Hold |- *.
        destruct (String.eqb (name f) "__proto__") eqn:Hproto;
          destruct (inherited (name f)) eqn:Hinh;
          try discriminate (Hsetter eq_refl);
          destruct (existsb (in_group (name f)) fields) eqn:Hany;
          destruct (existsb (fun f0 => in_group (name f) f0 && checked f0) fields) eqn:Hchk;
          try (rewrite (existsb_andb_false _ checked fields Hany) in Hchk; discriminate);
          destruct (checked f); cbn [negb andb orb] in *;
          rewrite ?set_member_lookup, ?Hproto, ?String.eqb_refl;
          try reflexivity; try exact Hold.
      * rewrite (group_state_snoc_other fields f group (in_group_other f group Hname)).
        rewrite <- IH. clearbody radioGroups. cbv zeta.
        destruct (negb (get_flag radioGroups (name f))), (checked f);
          rewrite ?set_member_lookup, ?Hname;
          destruct (String.eqb (name f) "__proto__"); reflexivity.
    + assert (Hout : in_group group f = false)
        by (unfold in_group, is_radio; rewrite Hradio; reflexivity).
      rewrite (group_state_snoc_other fields f group Hout), <- IH.
      destruct (String.eqb (type f) "checkbox"), (checked f),
        (truthy_string (trim (value f))); reflexivity.
Qed.

Lemma validate_element_true (section : Section) :
  validate_element section = true ↔
  (∀ f, In f (inputs section) → required f = true → kind f = Radio →
        inherited (name f) = false →
        ∃ g, In g (inputs section) ∧ required g = true ∧ kind g = Radio
             ∧ name g = name f ∧ checked g = true)
  ∧ (∀ f, In f (inputs section) → required f = true → kind f = Checkbox →
          checked f = true).
Proof.
  unfold validate_element, querySelectorAll.
  set (requiredInputs := List.filter sel_required (inputs section)).
  set (radioGroups := forEach validate_callback requiredInputs ∅).
  rewrite !for_of_guard.
  assert (Hgroups :
    existsb (fun group => negb (get_flag radioGroups group))
            (map_to_list radioGroups).*1 = false ↔
    ∀ f, In f (inputs section) → required f = true → kind f = Radio →
         inherited (name f) = false →
         ∃ g, In g (inputs section) ∧ required g = true ∧ kind g = Radio
              ∧ name g = name f ∧ checked g = true).
  { rewrite <- not_true_iff_false, existsb_exists. split.
    - intros Hnone f Hin Hreq Hkind Hplain.
      assert (Hf : In f requiredInputs) by (apply filter_In; auto).
      assert (Hgrp : in_group (name f) f = true).
      { unfold in_group. rewrite String.eqb_refl, andb_true_r.
        apply is_radio_kind, Hkind. }
      pose proof (radioGroups_lookup requiredInputs (name f)) as Hl.
      fold radioGroups in Hl. unfold group_state in Hl. rewrite Hplain in Hl.
      assert (Hex : existsb (in_group (name f)) requiredInputs = true)
        by (apply existsb_exists; eauto).
      rewrite Hex in Hl.
      destruct (existsb (fun f0 => in_group (name f) f0 && checked f0) requiredInputs)
        eqn:Hchk.
      + apply existsb_exists in Hchk as (g & Hg & Hgc).
        apply andb_true_iff in Hgc as [Hgg Hgc].
        unfold in_group in Hgg. apply andb_true_iff in Hgg as [Hgr Hgn].
        apply filter_In in Hg as [Hg Hgreq].
        exists g. repeat split; auto.
        * apply is_radio_kind, Hgr.
        * apply String.eqb_eq, Hgn.
      + exfalso. apply Hnone. exists (name f). split.
        * apply list_elem_of_In, list_elem_of_fmap.
          exists (name f, false). split; [reflexivity|].
          apply elem_of_map_to_list, Hl.
        * unfold get_flag. rewrite Hl. reflexivity.
    - intros Hall (group & Hin & Hfalsy).
      apply list_elem_of_In, list_elem_of_fmap in Hin as ([k v] & -> & Hkv).
      apply elem_of_map_to_list in Hkv. simpl in Hfalsy.
      unfold get_flag in Hfalsy. rewrite Hkv in Hfalsy.
      destruct v; [discriminate|].
      pose proof (radioGroups_lookup requiredInputs k) as Hl.
      fold radioGroups in Hl. rewrite Hkv in Hl. unfold group_state in Hl.
      destruct (inherited k) eqn:Hplain.
      { destruct (_ && _) in Hl; discriminate. }
      destruct (existsb (in_group k) requiredInputs) eqn:Hex; [|discriminate].
      injection Hl as Hl. symmetry in Hl.
      apply existsb_exists in Hex as (f & Hf & Hgrp).
      apply filter_In in Hf as [Hf Hreq].
      unfold in_group in Hgrp. apply andb_true_iff in Hgrp as [Hr Hn].
      apply String.eqb_eq in Hn. subst k.
      destruct (Hall f Hf Hreq (proj1 (is_radio_kind f) Hr) Hplain)
        as (g & Hg & Hgreq & Hgk & Hgn & Hgc).
      apply not_true_iff_false in Hl. apply Hl.
      apply existsb_exists. exists g. split.
      + apply filter_In. auto.
      + unfold in_group. rewrite (proj2 (is_radio_kind g) Hgk), Hgn, String.eqb_refl, Hgc.
        reflexivity. }
  assert (Hboxes :
    existsb (fun checkbox => negb (checked checkbox))
            (List.filter sel_required_checkbox (inputs section)) = false ↔
    ∀ f, In f (inputs section) → required f = true → kind f = Checkbox →
         checked f = true).
  { rewrite <- not_true_iff_false, existsb_exists. split.
    - intros Hnone f Hin Hreq Hkind.
      destruct (checked f) eqn:Hc; [reflexivity|].
      exfalso. apply Hnone. exists f. split; [|rewrite Hc; reflexivity].
      apply filter_In. split; [assumption|].
      apply sel_required_checkbox_kind. auto.
    - intros Hall (f & Hf & Hc).
      apply filter_In in Hf as [Hf Hsel].
      apply sel_required_checkbox_kind in Hsel as [Hk Hreq].
      rewrite (Hall f Hf Hreq Hk) in Hc. discriminate. }
  rewrite <- Hgroups, <- Hboxes.
  destruct (existsb _ (map_to_list radioGroups).*1); simpl.
  - split; [discriminate|intros [? _]; discriminate].
  - destruct (existsb _ (List.filter sel_required_checkbox (inputs section))); simpl.
    + split; [discriminate|intros [_ ?]; discriminate].
    + split; auto.
Qed.

(** ** Serialisation of the form *)

Lemma collect_from (entries : list (string * string)) (data : gmap string string)
      (key : string) :
  fold_left (fun data entry => set_member data (fst entry) (snd entry)) entries data !! key =
  if String.eqb key "__proto__" then data !! key
  else match last_wins key entries with
       | Some v => Some v
       | None => data !! key
       end.
Proof.
  revert data. induction entries as [|[k v] rest IH]; intros data; simpl.
  - destruct (String.eqb key "__proto__"); reflexivity.
  - rewrite IH, set_member_lookup. cbn [fst snd].
    destruct (String.eqb key "__proto__") eqn:Hkey.
    + apply String.eqb_eq in Hkey. subst key.
      destruct (String.eqb k "__proto__"); reflexivity.
    + destruct (last_wins key rest); [reflexivity|].
      destruct (String.eqb_spec k key) as [Heq|Hne].
      * subst k. rewrite Hkey. reflexivity.
      * destruct (String.eqb k "__proto__"); reflexivity.
Qed.

Lemma collect_lookup (entries : list (string * string)) (key : string) :
  collect entries !! key
  = if String.eqb key "__proto__" then None else last_wins key entries.
Proof.
  unfold collect. rewrite collect_from, lookup_empty.
  destruct (String.eqb key "__proto__"), (last_wins key entries); reflexivity.
Qed.

Lemma last_wins_FormData (key : string) (controls : list Field) :
  last_wins key (FormData controls) = last_submitted key controls.
Proof.
  unfold FormData.
  induction controls as [|f controls IH]; simpl; [reflexivity|].
  unfold submitted.
  destruct (truthy_string (name f)); simpl.
  - destruct ((String.eqb (type f) "checkbox" || String.eqb (type f) "radio")
              && negb (checked f)); simpl; rewrite IH.
    + rewrite andb_false_r. destruct (last_submitted key controls); reflexivity.
    + rewrite andb_true_r. reflexivity.
  - rewrite IH, andb_false_r. destruct (last_submitted key controls); reflexivity.
Qed.

Lemma collect_last_submitted (controls : list Field) (key : string) :
  collect (FormData controls) !! key
  = if String.eqb key "__proto__" then None else last_submitted key controls.
Proof. rewrite collect_lookup, last_wins_FormData. reflexivity. Qed.

Lemma FormData_skips_unchecked (controls : list Field) :
  FormData (List.filter (fun f => negb (unchecked_checkbox f)) controls) = FormData controls.
Proof.
  unfold FormData.
  induction controls as [|f controls IH]; simpl; [reflexivity|].
  unfold unchecked_checkbox at 1.
  destruct (String.eqb (type f) "checkbox") eqn:Hbox, (checked f) eqn:Hchk; simpl;
    rewrite ?Hbox, ?Hchk, IH; simpl; try reflexivity.
  destruct (truthy_string (name f)); reflexivity.
Qed.

(** ** The submit handler, case by case *)

Lemma form_submit_begin_accepted (p : Page) :
  completion (validateSection (currentSection p) p) = Normal true →
  form_submit_begin p =
  {| completion := Normal true;
     page := set_submitBtn p (busy (submitBtn p));
     effects := [PreventDefault; request p] |}.
Proof.
  intros Hv. unfold form_submit_begin, bind, get, modify, emit, ret.
  cbn. rewrite validateSection_run in *. cbn in *.
  destruct (item (sections p) (currentSection p)); [|discriminate].
  injection Hv as ->. reflexivity.
Qed.

Lemma form_submit_begin_rejected (p : Page) :
  completion (validateSection (currentSection p) p) = Normal false →
  form_submit_begin p =
  {| completion := Normal false;
     page := p;
     effects := [PreventDefault;
                 Alert "Please complete all required fields and agree to the terms."] |}.
Proof.
  intros Hv. unfold form_submit_begin, bind, get, modify, emit, ret.
  cbn. rewrite validateSection_run in *. cbn in *.
  destruct (item (sections p) (currentSection p)); [|discriminate].
  injection Hv as ->. reflexivity.
Qed.

Lemma settle_stored (p : Page) (result : json) (success : option json) :
  member "success" result = Normal success →
  truthy success = true →
  settle (Body result) p =
  {| completion := Normal tt;
     page :=
       set_location
         (set_sessionStorage p (<["riskResults" := stringify result]> (sessionStorage p)))
         "/results";
     effects := [SetItem "riskResults" (stringify result); Navigate "/results"] |}.
Proof.
  intros Hm Ht.
  unfold settle, try_catch, fetch_json, on_result, bind, lift, ret, emit, modify.
  cbn. rewrite Hm. cbn. rewrite Ht. reflexivity.
Qed.

Lemma settle_transport (p : Page) (reason : string) :
  settle (FetchRejected reason) p = caught (Rejected reason) p.
Proof. reflexivity. Qed.

Lemma settle_parse (p : Page) (reason : string) :
  settle (BodyRejected reason) p = caught (Rejected reason) p.
Proof. reflexivity. Qed.

Lemma settle_null (p : Page) : settle (Body JNull) p = caught TypeError p.
Proof. reflexivity. Qed.

Lemma settle_refused (p : Page) (result : json) (success error : option json) :
  member "success" result = Normal success →
  truthy success = false →
  member "error" result = Normal error →
  settle (Body result) p
  = caught (match or_else error "Prediction failed" with
            | Some message => Error message
            | None => TypeError
            end) p.
Proof.
  intros Hs Ht He.
  unfold settle, try_catch, fetch_json, on_result, on_error, bind, lift, ret, emit,
    modify, throw.
  cbn. rewrite Hs. cbn. rewrite Ht. cbn. rewrite He. cbn.
  destruct (or_else error "Prediction failed"); reflexivity.
Qed.

Lemma or_else_falsy (error : option json) (fallback : string) :
  truthy error = false → or_else error fallback = Some fallback.
Proof. intros Hf. unfold or_else. destruct error; [rewrite Hf|]; reflexivity. Qed.

Lemma form_submit_run (p : Page) (response : Response) :
  completion (validateSection (currentSection p) p) = Normal true →
  let busy_page := set_submitBtn p (busy (submitBtn p)) in
  form_submit response p =
  {| completion := completion (settle response busy_page);
     page := page (settle response busy_page);
     effects := [PreventDefault; request p] ++ effects (settle response busy_page) |}.
Proof.
  intros Hv. unfold form_submit, bind.
  rewrite (form_submit_begin_accepted p Hv).
  destruct (settle response _) as [c q log]. reflexivity.
Qed.

(** ** What a user can reach through the visible controls *)

Lemma showSection_in_bounds (p : Page) (i : Z) :
  currentSection p = i →
  0 ≤ i < totalSections p →
  in_bounds (page (showSection i p)).
Proof.
  intros Hcur Hi.
  destruct (item_in_range (sections p) i Hi) as [s Hs].
  rewrite (showSection_in_range p i s Hs).
  unfold in_bounds, totalSections, clickable in *. cbn.
  rewrite length_insert, length_fmap, Hcur.
  split; [exact Hi|]. split.
  - destruct (Z.eqb_spec i 0); [discriminate|auto].
  - destruct (Z.eqb_spec i (Z.of_nat (length (sections p)) - 1)); [discriminate|auto].
Qed.

Lemma user_step_in_bounds (p q : Page) :
  in_bounds p → user_step p q → in_bounds q.
Proof.
  intros (Hrange & Hprev & Hnext) Hstep.
  destruct Hstep as [p Hclick|p Hclick|p answered Hsame].
  - specialize (Hnext Hclick).
    destruct (item_in_range (sections p) (currentSection p) Hrange) as [s Hs].
    destruct (validate_element s) eqn:Hvalid.
    + assert (Hret : completion (validateSection (currentSection p) p) = Normal true)
        by (rewrite validateSection_run; cbn; rewrite Hs, Hvalid; reflexivity).
      rewrite (nextBtn_click_accepted p Hret). cbv zeta.
      destruct (Z.ltb_spec (currentSection p + 1) (totalSections p)); [|lia].
      apply showSection_in_bounds; [reflexivity|].
      change (totalSections (set_currentSection p (currentSection p + 1)))
        with (totalSections p). lia.
    + assert (Hret : completion (validateSection (currentSection p) p) = Normal false)
        by (rewrite validateSection_run; cbn; rewrite Hs, Hvalid; reflexivity).
      rewrite (nextBtn_click_rejected p Hret). cbn. repeat split; tauto.
  - specialize (Hprev Hclick).
    rewrite prevBtn_click_run_exact by lia. cbv zeta.
    destruct (Z.leb_spec 0 (currentSection p - 1)); [|lia].
    apply showSection_in_bounds; [reflexivity|].
    change (totalSections (set_currentSection p (currentSection p - 1)))
      with (totalSections p). lia.
  - assert (Hlen : length answered = length (sections p)).
    { rewrite <- (length_fmap classList answered), Hsame. apply length_fmap. }
    unfold in_bounds, totalSections in *. cbn. rewrite Hlen. tauto.
Qed.

Lemma showSection_out_of_range (p : Page) (i : Z) :
  item (sections p) i = None → completion (showSection i p) = Throw TypeError.
Proof.
  intros Hnone. unfold showSection, bind, modify, get, throw. cbn.
  rewrite item_fmap, Hnone. reflexivity.
Qed.

Lemma DOMContentLoaded_in_bounds (p0 : Page) :
  completion (DOMContentLoaded p0) = Normal tt →
  in_bounds (page (DOMContentLoaded p0)).
Proof.
  unfold DOMContentLoaded, bind, modify, get. cbn.
  set (p1 := set_totalStepsSpan (set_currentSection p0 0) (totalSections _)).
  destruct (item (sections p1) 0) as [s|] eqn:Hs.
  - intros _. pose proof (item_Some _ _ _ Hs) as Hrange.
    pose proof (showSection_in_bounds p1 0 eq_refl Hrange) as Hb.
    destruct (showSection 0 p1) as [c q log]. exact Hb.
  - pose proof (showSection_out_of_range p1 0 Hs) as Hthrow.
    destruct (showSection 0 p1) as [c q log]. cbn in *. subst c. discriminate.
Qed.

(** Clicks on visible controls keep the index within [0, N): the
    controls that would leave the range are the hidden ones. *)
Lemma reachable_in_bounds (p0 p : Page) :
  reachable p0 p → 0 ≤ currentSection p < totalSections p.
Proof.
  intros Hreach. cut (in_bounds p); [intros [H _]; exact H|].
  induction Hreach as [Hload|p q _ IH Hstep].
  - apply DOMContentLoaded_in_bounds, Hload.
  - exact (user_step_in_bounds p q IH Hstep).
Qed.

Example intake_last_reachable : reachable (template intake) intake_last.
Proof.
  apply (reach_step _ (loaded intake)).
  - apply reach_load. vm_compute. reflexivity.
  - apply step_next. vm_compute. reflexivity.
Qed.

(** ** Rendering *)

(** C7: for every index i in [0, N), showSection(i) returns normally and
    afterwards section i carries the token [active] and no other section
    does, whatever the tokens were before; the node list keeps its
    length. *)
Theorem showSection_marks_exactly_one (p : Page) (i : Z) :
  0 ≤ i < totalSections p →
  completion (showSection i p) = Normal tt
  ∧ length (sections (page (showSection i p))) = length (sections p)
  ∧ ∀ j section,
      item (sections (page (showSection i p))) j = Some section →
      contains "active" (classList section) = Z.eqb j i.
Proof.
  intros Hi.
  destruct (item_in_range (sections p) i Hi) as [s Hs].
  rewrite (showSection_in_range p i s Hs). cbn.
  split; [reflexivity|].
  split; [rewrite length_insert, length_fmap; reflexivity|].
  intros j section.
  rewrite item_insert by (rewrite length_fmap; exact Hi).
  destruct (Z.eqb j i).
  - intros [= <-]. apply contains_add.
  - rewrite item_fmap. destruct (item (sections p) j); [|discriminate].
    intros [= <-]. apply contains_remove.
Qed.

Lemma showSection_marks_exactly_one_witness :
  completion (showSection 1 (template intake)) = Normal tt
  ∧ length (sections (page (showSection 1 (template intake))))
    = length (sections (template intake))
  ∧ ∀ j section,
      item (sections (page (showSection 1 (template intake)))) j = Some section →
      contains "active" (classList section) = Z.eqb j 1.
Proof.
  apply (showSection_marks_exactly_one (template intake) 1).
  vm_compute. split; [discriminate|reflexivity].
Defined.

(** The widths on a page of three sections: the doubles that JavaScript
    prints as 33.33333333333333, 66.66666666666666 and 100. *)
Lemma progress_of_three :
  progress 0 3 = 0x1.0aaaaaaaaaaaap+5%float
  ∧ progress 1 3 = 0x1.0aaaaaaaaaaaap+6%float
  ∧ progress 2 3 = 0x1.9p+6%float.
Proof. vm_compute. repeat split; reflexivity. Qed.

(** C8: for every index i in [0, N), showSection(i) sets the width of the
    progress bar to ((i+1)/N)*100 percent, the double that the division
    and the multiplication of the script give, and the step counter to
    i+1; the previous control is hidden exactly when i = 0 and shown
    otherwise; the next control is hidden and the submit control shown
    exactly when i = N-1, and the other way round otherwise. *)
Theorem showSection_indicators (p : Page) (i : Z) :
  0 ≤ i < totalSections p →
  let shown := page (showSection i p) in
  progressBar shown
  = Percent (PrimFloat.mul
               (PrimFloat.div (to_double (i + 1)) (to_double (totalSections p)))
               (to_double 100))
  ∧ currentStepSpan shown = i + 1
  ∧ (display (prevBtn shown) = "none" ↔ i = 0)
  ∧ (display (prevBtn shown) = "inline-block" ↔ i ≠ 0)
  ∧ (display (nextBtn shown) = "none" ∧ display (submitBtn shown) = "inline-block"
     ↔ i = totalSections p - 1)
  ∧ (display (nextBtn shown) = "inline-block" ∧ display (submitBtn shown) = "none"
     ↔ i ≠ totalSections p - 1).
Proof.
  intros Hi.
  destruct (item_in_range (sections p) i Hi) as [s Hs].
  rewrite (showSection_in_range p i s Hs). cbn.
  split; [reflexivity|]. split; [reflexivity|].
  destruct (Z.eqb_spec i 0) as [H0|H0];
    destruct (Z.eqb_spec i (totalSections p - 1)) as [HN|HN];
    repeat split; intros; try assumption; try reflexivity; try discriminate;
    try contradiction;
    match goal with
    | H : _ ∧ _ |- _ => destruct H; discriminate
    end.
Qed.

Lemma showSection_indicators_witness :
  progressBar (page (showSection 1 (template intake)))
  = Percent (PrimFloat.mul
               (PrimFloat.div (to_double (1 + 1))
                              (to_double (totalSections (template intake))))
               (to_double 100))
  ∧ currentStepSpan (page (showSection 1 (template intake))) = 1 + 1
  ∧ (display (prevBtn (page (showSection 1 (template intake)))) = "none" ↔ 1 = 0)
  ∧ (display (prevBtn (page (showSection 1 (template intake)))) = "inline-block" ↔ 1 ≠ 0)
  ∧ (display (nextBtn (page (showSection 1 (template intake)))) = "none"
     ∧ display (submitBtn (page (showSection 1 (template intake)))) = "inline-block"
     ↔ 1 = totalSections (template intake) - 1)
  ∧ (display (nextBtn (page (showSection 1 (template intake)))) = "inline-block"
     ∧ display (submitBtn (page (showSection 1 (template intake)))) = "none"
     ↔ 1 ≠ totalSections (template intake) - 1).
Proof.
  apply (showSection_indicators (template intake) 1).
  vm_compute. split; [discriminate|reflexivity].
Defined.

(** ** Validation and navigation *)

(** C1 (the code departs from it): a required text field whose value is
    blank after trimming does not make validateSection fail -- the
    [return false] meant for it returns from the [forEach] callback. On a
    page whose only section holds such a field, validateSection(0)
    returns [true]. *)
Theorem validateSection_accepts_blank_required_text :
  trim "   " = EmptyString
  ∧ completion (validateSection 0 (loaded blank_age)) = Normal true.
Proof. vm_compute. split; reflexivity. Qed.

(** C2 (the code departs from it): the handlers change [currentSection]
    before they test the bound. From the last section of a two-section
    page, whose validation passes, the next handler leaves the index at
    N; from the first section the previous handler leaves it at -1. *)
Theorem navigation_leaves_the_range :
  currentSection intake_last = totalSections intake_last - 1
  ∧ completion (validateSection (currentSection intake_last) intake_last) = Normal true
  ∧ currentSection (page (nextBtn_click intake_last)) = totalSections intake_last
  ∧ currentSection (loaded intake) = 0
  ∧ currentSection (page (prevBtn_click (loaded intake))) = -1.
Proof. vm_compute. repeat split; reflexivity. Qed.

(** C9: when validateSection of the current section returns false, the
    next handler shows one blocking alert and changes nothing: the page,
    with its index and its rendering, is the one it started from, and no
    other effect is performed. *)
Theorem nextBtn_click_blocked (p : Page) :
  completion (validateSection (currentSection p) p) = Normal false →
  completion (nextBtn_click p) = Normal tt
  ∧ page (nextBtn_click p) = p
  ∧ effects (nextBtn_click p)
    = [Alert "Please answer all required questions before proceeding."].
Proof.
  intros Hv. rewrite (nextBtn_click_rejected p Hv). repeat split; reflexivity.
Qed.

Lemma nextBtn_click_blocked_witness :
  completion (nextBtn_click (loaded consent)) = Normal tt
  ∧ page (nextBtn_click (loaded consent)) = loaded consent
  ∧ effects (nextBtn_click (loaded consent))
    = [Alert "Please answer all required questions before proceeding."].
Proof.
  apply (nextBtn_click_blocked (loaded consent)).
  vm_compute. reflexivity.
Defined.

(** C10: a section without any required input passes validation, and the
    next handler run on it moves the index forward by one without an
    alert. *)
Theorem validateSection_vacuous (p : Page) (i : Z) (section : Section) :
  item (sections p) i = Some section →
  (∀ f, In f (inputs section) → required f = false) →
  completion (validateSection i p) = Normal true
  ∧ (currentSection p = i →
     currentSection (page (nextBtn_click p)) = i + 1
     ∧ alerts (effects (nextBtn_click p)) = []).
Proof.
  intros Hitem Hnone.
  assert (Hvalid : validate_element section = true).
  { apply validate_element_true. split; intros f Hin Hreq;
      rewrite (Hnone f Hin) in Hreq; discriminate. }
  assert (Hret : completion (validateSection i p) = Normal true).
  { rewrite validateSection_run. cbn. rewrite Hitem, Hvalid. reflexivity. }
  split; [exact Hret|].
  intros <-. split; [apply nextBtn_click_increments, Hret|].
  rewrite (nextBtn_click_accepted p Hret).
  destruct (Z.ltb_spec (currentSection p + 1) (totalSections p)) as [Hlt|_];
    [|reflexivity].
  apply item_Some in Hitem.
  destruct (item_in_range (sections p) (currentSection p + 1)) as [s Hs];
    [unfold totalSections in Hlt; lia|].
  cbv zeta.
  rewrite (showSection_in_range (set_currentSection p (currentSection p + 1)) _ s Hs).
  reflexivity.
Qed.

Lemma validateSection_vacuous_witness :
  completion (validateSection 0 (loaded remarks)) = Normal true
  ∧ (currentSection (loaded remarks) = 0 →
     currentSection (page (nextBtn_click (loaded remarks))) = 0 + 1
     ∧ alerts (effects (nextBtn_click (loaded remarks))) = []).
Proof.
  apply (validateSection_vacuous (loaded remarks) 0
           {| classList := ["form-section"; "active"];
              inputs := [field Text "notes" EmptyString false false] |}).
  - vm_compute. reflexivity.
  - intros f [<-|[]]. reflexivity.
Defined.

(** ** Submission *)

(** C5 (the code departs from it): the mapping sent to the endpoint
    holds, for every key but [__proto__], the value of the last control
    in form order that is submitted under that name, and no key
    otherwise; leaving the unticked checkboxes out of the form does not
    change it, and the form of the example serialises to
    {age: 34, riskGroup: high}. A control named [__proto__] gets no key:
    [data[key] = value] reaches the setter that [data] inherits, so for
    the form [prototype_named] the value that should win, [b], is not
    in the mapping, which holds the age alone. *)
Theorem serialization_loses_proto (controls : list Field) (key : string) :
  collect (FormData controls) !! key
  = (if String.eqb key "__proto__" then None else last_submitted key controls)
  ∧ collect (FormData controls)
    = collect (FormData (List.filter (fun f => negb (unchecked_checkbox f)) controls))
  ∧ collect (FormData (form intake_last))
    = <["age" := "34"]> (<["riskGroup" := "high"]> ∅)
  ∧ last_submitted "__proto__" prototype_named = Some "b"
  ∧ collect (FormData prototype_named) !! "__proto__" = None
  ∧ collect (FormData prototype_named) = <["age" := "34"]> ∅.
Proof.
  split; [apply collect_last_submitted|].
  split; [rewrite FormData_skips_unchecked; reflexivity|].
  vm_compute. repeat split; reflexivity.
Qed.

(** C4: when validation passes and the response parses to a value whose
    [success] is truthy (in particular [true]), the handler stores
    JSON.stringify of the whole response under the key [riskResults] and
    afterwards navigates to [/results]; these follow the request and are
    the handler's last effects. *)
Theorem accepted_response_stored_then_results
        (p : Page) (result : json) (success : option json) :
  completion (validateSection (currentSection p) p) = Normal true →
  member "success" result = Normal success →
  truthy success = true →
  completion (form_submit (Body result) p) = Normal tt
  ∧ sessionStorage (page (form_submit (Body result) p)) !! "riskResults"
    = Some (stringify result)
  ∧ location (page (form_submit (Body result) p)) = "/results"
  ∧ effects (form_submit (Body result) p)
    = [PreventDefault; request p;
       SetItem "riskResults" (stringify result); Navigate "/results"].
Proof.
  intros Hv Hm Ht.
  rewrite (form_submit_run p (Body result) Hv). cbv zeta.
  rewrite (settle_stored _ result success Hm Ht).
  cbn [completion page effects sessionStorage location set_location set_sessionStorage].
  repeat split; try reflexivity.
  apply lookup_insert_eq.
Qed.

Lemma accepted_response_stored_then_results_witness :
  completion (form_submit (Body scored) intake_last) = Normal tt
  ∧ sessionStorage (page (form_submit (Body scored) intake_last)) !! "riskResults"
    = Some (stringify scored)
  ∧ location (page (form_submit (Body scored) intake_last)) = "/results"
  ∧ effects (form_submit (Body scored) intake_last)
    = [PreventDefault; request intake_last;
       SetItem "riskResults" (stringify scored); Navigate "/results"].
Proof.
  apply (accepted_response_stored_then_results intake_last scored (Some (JBool true)));
    vm_compute; reflexivity.
Defined.

(** The stored text for the response of the example is that response,
    member for member. *)
Lemma stringify_scored :
  stringify scored
  = "{" +:+ quote "success" +:+ ":true," +:+ quote "result" +:+ ":{"
        +:+ quote "score" +:+ ":0.8}}".
Proof. vm_compute. reflexivity. Qed.

(** C3, as the code has it: on a response with [success: false] and an
    [error] text, the text goes to the console inside the [Error] that is
    logged; the blocking alert shows the fixed message; the submit
    control is enabled again with the label [Submit Assessment]. *)
Theorem refused_response_generic_alert
        (p : Page) (properties : list (string * json)) (message : string) :
  completion (validateSection (currentSection p) p) = Normal true →
  assoc "success" properties = Some (JBool false) →
  assoc "error" properties = Some (JString message) →
  let o := form_submit (Body (JObject properties)) p in
  completion o = Normal tt
  ∧ alerts (effects o)
    = ["An error occurred while processing your assessment. Please try again."]
  ∧ effects o
    = [PreventDefault; request p;
       ConsoleError "Error:"
         (Error (if truthy_string message then message else "Prediction failed"));
       Alert "An error occurred while processing your assessment. Please try again."]
  ∧ disabled (submitBtn (page o)) = false
  ∧ textContent (submitBtn (page o)) = "Submit Assessment"
  ∧ display (submitBtn (page o)) = display (submitBtn p).
Proof.
  intros Hv Hs He o. subst o.
  rewrite (form_submit_run p _ Hv). cbv zeta.
  rewrite (settle_refused _ (JObject properties) (Some (JBool false))
             (Some (JString message))); cbn; try congruence.
  destruct (truthy_string message); repeat split; reflexivity.
Qed.

Lemma refused_response_generic_alert_witness :
  completion (form_submit (Body bad_input) intake_last) = Normal tt
  ∧ alerts (effects (form_submit (Body bad_input) intake_last))
    = ["An error occurred while processing your assessment. Please try again."]
  ∧ effects (form_submit (Body bad_input) intake_last)
    = [PreventDefault; request intake_last;
       ConsoleError "Error:" (Error "bad input");
       Alert "An error occurred while processing your assessment. Please try again."]
  ∧ disabled (submitBtn (page (form_submit (Body bad_input) intake_last))) = false
  ∧ textContent (submitBtn (page (form_submit (Body bad_input) intake_last)))
    = "Submit Assessment"
  ∧ display (submitBtn (page (form_submit (Body bad_input) intake_last)))
    = display (submitBtn intake_last).
Proof.
  apply (refused_response_generic_alert intake_last
           [("success", JBool false); ("error", JString "bad input")] "bad input");
    vm_compute; reflexivity.
Defined.

(** C3 as stated fails on both counts. On the page whose submit control
    is labelled [Send], which passes validation, the response of the
    example leads to one message, the fixed one, while the server's text
    goes to the console; and the control ends with the label
    [Submit Assessment], which is not the label it had. *)
Lemma refused_response_shows_neither_text_nor_label :
  textContent (submitBtn relabelled) = "Send"
  ∧ completion (validateSection (currentSection relabelled) relabelled) = Normal true
  ∧ effects (form_submit (Body bad_input) relabelled)
    = [PreventDefault; request relabelled;
       ConsoleError "Error:" (Error "bad input");
       Alert "An error occurred while processing your assessment. Please try again."]
  ∧ existsb (String.eqb "bad input")
      (alerts (effects (form_submit (Body bad_input) relabelled))) = false
  ∧ textContent (submitBtn (page (form_submit (Body bad_input) relabelled)))
    = "Submit Assessment"
  ∧ String.eqb (textContent (submitBtn (page (form_submit (Body bad_input) relabelled))))
               (textContent (submitBtn relabelled)) = false.
Proof. vm_compute. repeat split; reflexivity. Qed.

(** C6, as the code has it: when validation passes and the request
    fails in transport, or its body does not parse, the handler shows
    the fixed alert and leaves the submit control enabled with the label
    [Submit Assessment], whatever its label was; on the success path the
    control stays disabled. *)
Theorem failed_request_releases_control
        (p : Page) (response : Response) (reason : string) :
  completion (validateSection (currentSection p) p) = Normal true →
  response = FetchRejected reason ∨ response = BodyRejected reason →
  let o := form_submit response p in
  completion o = Normal tt
  ∧ alerts (effects o)
    = ["An error occurred while processing your assessment. Please try again."]
  ∧ disabled (submitBtn (page o)) = false
  ∧ textContent (submitBtn (page o)) = "Submit Assessment"
  ∧ display (submitBtn (page o)) = display (submitBtn p)
  ∧ (∀ result success,
       member "success" result = Normal success →
       truthy success = true →
       disabled (submitBtn (page (form_submit (Body result) p))) = true).
Proof.
  intros Hv Hresp o. subst o.
  split; [|split; [|split; [|split; [|split]]]].
  6: { intros result success Hm Ht.
       rewrite (form_submit_run p _ Hv). cbv zeta.
       rewrite (settle_stored _ result success Hm Ht). reflexivity. }
  all: rewrite (form_submit_run p _ Hv); cbv zeta.
  all: destruct Hresp as [-> | ->];
    rewrite ?settle_transport, ?settle_parse; reflexivity.
Qed.

Lemma failed_request_releases_control_witness :
  completion (form_submit (FetchRejected "connection reset") intake_last) = Normal tt
  ∧ alerts (effects (form_submit (FetchRejected "connection reset") intake_last))
    = ["An error occurred while processing your assessment. Please try again."]
  ∧ disabled (submitBtn (page (form_submit (FetchRejected "connection reset") intake_last)))
    = false
  ∧ textContent (submitBtn (page (form_submit (FetchRejected "connection reset") intake_last)))
    = "Submit Assessment"
  ∧ display (submitBtn (page (form_submit (FetchRejected "connection reset") intake_last)))
    = display (submitBtn intake_last)
  ∧ (∀ result success,
       member "success" result = Normal success →
       truthy success = true →
       disabled (submitBtn (page (form_submit (Body result) intake_last))) = true).
Proof.
  apply (failed_request_releases_control intake_last
           (FetchRejected "connection reset") "connection reset").
  - vm_compute. reflexivity.
  - left. reflexivity.
Defined.

(** C6 as stated fails: on the page whose submit control is labelled
    [Send], enabled and with its section answered, a connection reset
    leaves the control with the label [Submit Assessment], which is not
    the label it had. *)
Lemma failed_request_forgets_the_label :
  textContent (submitBtn relabelled) = "Send"
  ∧ disabled (submitBtn relabelled) = false
  ∧ completion (validateSection (currentSection relabelled) relabelled) = Normal true
  ∧ completion (form_submit (FetchRejected "connection reset") relabelled) = Normal tt
  ∧ textContent (submitBtn (page (form_submit (FetchRejected "connection reset") relabelled)))
    = "Submit Assessment"
  ∧ String.eqb
      (textContent (submitBtn (page (form_submit (FetchRejected "connection reset") relabelled))))
      (textContent (submitBtn relabelled)) = false.
Proof. vm_compute. repeat split; reflexivity. Qed.

(** * Further properties *)

(** ** Validation *)

(** X1: on an index in range validateSection returns, without touching
    the page, [true] exactly when every required radio button whose name
    is not one that [Object.prototype] defines has a checked required
    radio button of its name in the section and every required checkbox
    is checked; the values of text and select fields do not enter, and
    neither does a radio group named after a member of
    [Object.prototype]. *)
Theorem validateSection_decides (p : Page) (i : Z) (section : Section) :
  item (sections p) i = Some section →
  ∃ b, validateSection i p = {| completion := Normal b; page := p; effects := [] |}
       ∧ (b = true ↔
          (∀ f, In f (inputs section) → required f = true → kind f = Radio →
                inherited (name f) = false →
                ∃ g, In g (inputs section) ∧ required g = true ∧ kind g = Radio
                     ∧ name g = name f ∧ checked g = true)
          ∧ (∀ f, In f (inputs section) → required f = true → kind f = Checkbox →
                  checked f = true)).
Proof.
  intros Hitem. exists (validate_element section). split.
  - rewrite validateSection_run, Hitem. reflexivity.
  - apply validate_element_true.
Qed.

Lemma validateSection_decides_witness :
  ∃ b, validateSection 1 (loaded intake)
       = {| completion := Normal b; page := loaded intake; effects := [] |}
       ∧ (b = true ↔
          (∀ f, In f [field Radio "riskGroup" "low" false true;
                      field Radio "riskGroup" "high" true true;
                      field Checkbox "newsletter" "on" false false] →
                required f = true → kind f = Radio →
                inherited (name f) = false →
                ∃ g, In g [field Radio "riskGroup" "low" false true;
                           field Radio "riskGroup" "high" true true;
                           field Checkbox "newsletter" "on" false false]
                     ∧ required g = true ∧ kind g = Radio
                     ∧ name g = name f ∧ checked g = true)
          ∧ (∀ f, In f [field Radio "riskGroup" "low" false true;
                        field Radio "riskGroup" "high" true true;
                        field Checkbox "newsletter" "on" false false] →
                  required f = true → kind f = Checkbox → checked f = true)).
Proof.
  apply (validateSection_decides (loaded intake) 1
           {| classList := ["form-section"];
              inputs := [field Radio "riskGroup" "low" false true;
                         field Radio "riskGroup" "high" true true;
                         field Checkbox "newsletter" "on" false false] |}).
  vm_compute. reflexivity.
Defined.

(** A required radio group named [constructor] with no button checked
    does not hold the user back: the name reads as truthy before any
    button has been seen. *)
Lemma validateSection_inherited_name :
  completion (validateSection 0
                (loaded [[field Radio "constructor" "a" false true;
                          field Radio "constructor" "b" false true]]))
  = Normal true.
Proof. vm_compute. reflexivity. Qed.

Lemma In_retyped (typed : Field → string) (section : Section) (g : Field) :
  In g (inputs (retyped typed section)) ↔
  ∃ f, In f (inputs section) ∧ g = set_value f (typed f).
Proof.
  unfold retyped. cbn. rewrite <- list_elem_of_In, list_elem_of_fmap.
  split; intros (f & H1 & H2); exists f; [split; [apply list_elem_of_In|]|split; [|apply list_elem_of_In]]; auto.
Qed.

Lemma validate_element_retyped (typed : Field → string) (section : Section) :
  validate_element (retyped typed section) = validate_element section.
Proof.
  apply eq_true_iff_eq. rewrite !validate_element_true. split.
  - intros [Hradio Hbox]. split.
    + intros f Hin Hreq Hkind Hplain.
      destruct (Hradio (set_value f (typed f))) as (g' & Hg' & Hr & Hk & Hn & Hc);
        [apply In_retyped; eauto|assumption|assumption|exact Hplain|].
      apply In_retyped in Hg' as (g & Hg & ->). exists g. auto.
    + intros f Hin Hreq Hkind.
      apply (Hbox (set_value f (typed f))); [apply In_retyped; eauto|assumption|assumption].
  - intros [Hradio Hbox]. split.
    + intros f' Hin Hreq Hkind Hplain. apply In_retyped in Hin as (f & Hf & ->).
      destruct (Hradio f Hf Hreq Hkind Hplain) as (g & Hg & Hr & Hk & Hn & Hc).
      exists (set_value g (typed g)). split; [apply In_retyped; eauto|auto].
    + intros f' Hin Hreq Hkind. apply In_retyped in Hin as (f & Hf & ->).
      apply (Hbox f Hf Hreq Hkind).
Qed.

(** X2: whatever is typed into the fields, validateSection gives the
    same answer: replacing the value of every field of every section
    leaves its completion unchanged, for every index. *)
Theorem validateSection_ignores_values (p : Page) (typed : Field → string) (i : Z) :
  completion (validateSection i (set_sections p (retyped typed <$> sections p)))
  = completion (validateSection i p).
Proof.
  rewrite !validateSection_run. cbn. rewrite item_fmap.
  destruct (item (sections p) i) as [section|]; cbn; [|reflexivity].
  rewrite validate_element_retyped. reflexivity.
Qed.

(** X3: a required radio group, under a name that [Object.prototype]
    does not define, counts as answered only through a member that
    itself carries [required]: when every required radio button of the
    name is unchecked, validateSection returns false, also when another
    button of that name is checked. *)
Theorem validateSection_needs_required_member
        (p : Page) (i : Z) (section : Section) (f : Field) :
  item (sections p) i = Some section →
  In f (inputs section) → required f = true → kind f = Radio →
  inherited (name f) = false →
  (∀ g, In g (inputs section) → required g = true → kind g = Radio →
        name g = name f → checked g = false) →
  completion (validateSection i p) = Normal false.
Proof.
  intros Hitem Hin Hreq Hkind Hplain Hnone.
  rewrite validateSection_run, Hitem. cbn. f_equal.
  apply not_true_iff_false. intros [Hradio _]%validate_element_true.
  destruct (Hradio f Hin Hreq Hkind Hplain) as (g & Hg & Hr & Hk & Hn & Hc).
  rewrite (Hnone g Hg Hr Hk Hn) in Hc. discriminate.
Qed.

Lemma validateSection_needs_required_member_witness :
  completion (validateSection 0 (loaded smoker)) = Normal false.
Proof.
  apply (validateSection_needs_required_member (loaded smoker) 0
           {| classList := ["form-section"; "active"];
              inputs := [field Radio "smoker" "yes" false true;
                         field Radio "smoker" "no" true false] |}
           (field Radio "smoker" "yes" false true)).
  - vm_compute. reflexivity.
  - left. reflexivity.
  - reflexivity.
  - reflexivity.
  - reflexivity.
  - intros g [<-|[<-|[]]] Hr Hk Hn; [reflexivity|discriminate].
Defined.

(** ** Class tokens, continued *)

Lemma remove_remove (token : string) (tokens : list string) :
  remove token (remove token tokens) = remove token tokens.
Proof.
  unfold remove. induction tokens as [|t tokens IH]; simpl; [reflexivity|].
  destruct (negb (String.eqb t token)) eqn:E; simpl; [rewrite E, IH|]; auto.
Qed.

Lemma remove_add_remove (token : string) (tokens : list string) :
  remove token (add token (remove token tokens)) = remove token tokens.
Proof.
  unfold add. rewrite contains_remove.
  unfold remove at 1. rewrite List.filter_app. simpl.
  rewrite String.eqb_refl. simpl. rewrite app_nil_r.
  apply remove_remove.
Qed.

Lemma deactivate_deactivate (section : Section) :
  deactivate (deactivate section) = deactivate section.
Proof.
  unfold deactivate, set_classList. f_equal.
  exact (remove_remove "active" (classList section)).
Qed.

Lemma deactivate_activate_deactivate (section : Section) :
  deactivate (activate (deactivate section)) = deactivate section.
Proof.
  unfold deactivate, activate, set_classList. f_equal.
  exact (remove_add_remove "active" (classList section)).
Qed.

(** ** [showSection] outside the range, and twice *)

Lemma showSection_out_of_range_run (p : Page) (i : Z) :
  item (sections p) i = None →
  showSection i p =
  {| completion := Throw TypeError;
     page := set_sections p (deactivate <$> sections p);
     effects := [] |}.
Proof.
  intros Hnone. unfold showSection, bind, modify, get, throw. cbn.
  rewrite item_fmap, Hnone. reflexivity.
Qed.

Lemma item_None {A : Type} (xs : list A) (i : Z) :
  ¬ (0 ≤ i < Z.of_nat (length xs)) → item xs i = None.
Proof.
  intros Hout. destruct (item xs i) eqn:E; [|reflexivity].
  apply item_Some in E. contradiction.
Qed.

Lemma showSection_inputs (p : Page) (i : Z) :
  inputs <$> sections (page (showSection i p)) = inputs <$> sections p.
Proof.
  destruct (item (sections p) i) as [s|] eqn:Hitem.
  - rewrite (showSection_in_range p i s Hitem). cbn.
    apply list_eq. intros n. rewrite !list_lookup_fmap.
    pose proof (item_Some _ _ _ Hitem) as Hrange.
    destruct (decide (n = Z.to_nat i)) as [->|Hne].
    + rewrite list_lookup_insert_eq by (rewrite length_fmap; lia).
      unfold item in Hitem. destruct (Z.ltb i 0); [discriminate|].
      rewrite Hitem. reflexivity.
    + rewrite list_lookup_insert_ne by congruence.
      rewrite list_lookup_fmap. destruct (sections p !! n); reflexivity.
  - rewrite (showSection_out_of_range_run p i Hitem). cbn.
    rewrite <- list_fmap_compose. reflexivity.
Qed.

Lemma showSection_twice (p : Page) (i j : Z) (si sj : Section) :
  item (sections p) i = Some si →
  item (sections p) j = Some sj →
  page (showSection j (page (showSection i p))) = page (showSection j p).
Proof.
  intros Hi Hj.
  rewrite (showSection_in_range p i si Hi). cbn [page].
  pose proof (item_Some _ _ _ Hi) as Hri.
  pose proof (item_Some _ _ _ Hj) as Hrj.
  set (p1 := {| sections := _ |}).
  assert (Hlen : totalSections p1 = totalSections p).
  { unfold totalSections, p1. cbn. rewrite length_insert, length_fmap. reflexivity. }
  destruct (item_in_range (sections p1) j) as [sj' Hj'];
    [fold (totalSections p1); rewrite Hlen; exact Hrj|].
  rewrite (showSection_in_range p1 j sj' Hj'), (showSection_in_range p j sj Hj).
  rewrite Hlen. cbn. f_equal.
  assert (Hsj' : deactivate sj' = deactivate sj).
  { unfold p1 in Hj'. cbn in Hj'.
    rewrite item_insert in Hj' by (rewrite length_fmap; exact Hri).
    destruct (Z.eqb j i) eqn:E.
    - apply Z.eqb_eq in E. subst j. injection Hj' as <-.
      rewrite Hi in Hj. injection Hj as <-. apply deactivate_activate_deactivate.
    - rewrite item_fmap, Hj in Hj'. injection Hj' as <-. apply deactivate_deactivate. }
  rewrite Hsj'.
  apply list_eq. intros n.
  destruct (decide (n = Z.to_nat j)) as [->|Hne].
  - rewrite !list_lookup_insert_eq
      by (rewrite ?length_fmap, ?length_insert, ?length_fmap; lia).
    reflexivity.
  - rewrite !list_lookup_insert_ne by congruence.
    rewrite !list_lookup_fmap.
    destruct (decide (n = Z.to_nat i)) as [->|Hni].
    + rewrite list_lookup_insert_eq by (rewrite length_fmap; lia).
      unfold item in Hi. destruct (Z.ltb i 0); [discriminate|]. rewrite Hi. cbn.
      rewrite deactivate_activate_deactivate. reflexivity.
    + rewrite list_lookup_insert_ne by congruence.
      rewrite list_lookup_fmap. destruct (sections p !! n); cbn; [|reflexivity].
      rewrite deactivate_deactivate. reflexivity.
Qed.

Lemma showSection_rendered (p : Page) (i : Z) :
  currentSection p = i →
  0 ≤ i < totalSections p →
  rendered (page (showSection i p)).
Proof.
  intros Hcur Hi.
  destruct (item_in_range (sections p) i Hi) as [s Hs].
  rewrite (showSection_in_range p i s Hs).
  unfold rendered, totalSections in *. cbn.
  rewrite length_insert, length_fmap, Hcur.
  split; [exact Hi|]. split; [|repeat split].
  intros j section.
  rewrite item_insert by (rewrite length_fmap; exact Hi).
  destruct (Z.eqb j i).
  - intros [= <-]. apply contains_add.
  - rewrite item_fmap. destruct (item (sections p) j); [|discriminate].
    intros [= <-]. apply contains_remove.
Qed.

Lemma showSection_set_currentSection (p : Page) (i k : Z) :
  page (showSection i (set_currentSection p k))
  = set_currentSection (page (showSection i p)) k.
Proof.
  destruct (item (sections p) i) as [s|] eqn:Hitem.
  - rewrite (showSection_in_range (set_currentSection p k) i s Hitem),
      (showSection_in_range p i s Hitem). reflexivity.
  - rewrite (showSection_out_of_range_run (set_currentSection p k) i Hitem),
      (showSection_out_of_range_run p i Hitem). reflexivity.
Qed.

(** ** The handlers outside the range *)

Lemma nextBtn_click_out_of_range (p : Page) :
  item (sections p) (currentSection p) = None →
  nextBtn_click p = {| completion := Throw TypeError; page := p; effects := [] |}.
Proof.
  intros Hnone. unfold nextBtn_click, bind, get.
  rewrite validateSection_run, Hnone. reflexivity.
Qed.

Lemma form_submit_out_of_range (p : Page) (response : Response) :
  item (sections p) (currentSection p) = None →
  form_submit response p
  = {| completion := Throw TypeError; page := p; effects := [PreventDefault] |}.
Proof.
  intros Hnone. unfold form_submit, form_submit_begin, bind, get, emit.
  rewrite validateSection_run, Hnone. reflexivity.
Qed.

(** X4: with the index outside [0, N) validateSection has no section to
    read: the next handler throws a TypeError having done nothing, and
    the submit handler throws it after [preventDefault] alone -- no
    alert, no request, no change of the page. *)
Theorem handlers_throw_outside_range (p : Page) (response : Response) :
  ¬ (0 ≤ currentSection p < totalSections p) →
  nextBtn_click p = {| completion := Throw TypeError; page := p; effects := [] |}
  ∧ form_submit response p
    = {| completion := Throw TypeError; page := p; effects := [PreventDefault] |}.
Proof.
  intros Hout. pose proof (item_None (sections p) (currentSection p) Hout) as Hnone.
  split; [apply nextBtn_click_out_of_range|apply form_submit_out_of_range]; exact Hnone.
Qed.

Lemma handlers_throw_outside_range_witness :
  nextBtn_click (page (nextBtn_click intake_last))
  = {| completion := Throw TypeError; page := page (nextBtn_click intake_last);
       effects := [] |}
  ∧ form_submit (Body scored) (page (nextBtn_click intake_last))
    = {| completion := Throw TypeError; page := page (nextBtn_click intake_last);
         effects := [PreventDefault] |}.
Proof.
  apply (handlers_throw_outside_range (page (nextBtn_click intake_last)) (Body scored)).
  vm_compute. intros [_ H]. discriminate H.
Defined.

(** X5: showSection on an index outside [0, N) throws a TypeError after
    its first loop: every section has lost the token [active], and the
    indicators, the controls and the scroll position are as before. *)
Theorem showSection_outside_range (p : Page) (i : Z) :
  ¬ (0 ≤ i < totalSections p) →
  showSection i p
  = {| completion := Throw TypeError;
       page := set_sections p (deactivate <$> sections p);
       effects := [] |}
  ∧ ∀ j section, item (sections (page (showSection i p))) j = Some section →
                 contains "active" (classList section) = false.
Proof.
  intros Hout. pose proof (item_None (sections p) i Hout) as Hnone.
  rewrite (showSection_out_of_range_run p i Hnone). split; [reflexivity|].
  cbn. intros j section. rewrite item_fmap.
  destruct (item (sections p) j); [|discriminate].
  intros [= <-]. apply contains_remove.
Qed.

Lemma showSection_outside_range_witness :
  showSection 2 (loaded intake)
  = {| completion := Throw TypeError;
       page := set_sections (loaded intake) (deactivate <$> sections (loaded intake));
       effects := [] |}
  ∧ ∀ j section, item (sections (page (showSection 2 (loaded intake)))) j = Some section →
                 contains "active" (classList section) = false.
Proof.
  apply (showSection_outside_range (loaded intake) 2).
  vm_compute. intros [_ H]. discriminate H.
Defined.

(** X6: of two calls of showSection on indices in range only the last
    one shows: the page after showSection(i) then showSection(j) is the
    page after showSection(j) alone. *)
Theorem showSection_last_call_wins (p : Page) (i j : Z) :
  0 ≤ i < totalSections p →
  0 ≤ j < totalSections p →
  page (showSection j (page (showSection i p))) = page (showSection j p).
Proof.
  intros Hi Hj.
  destruct (item_in_range (sections p) i Hi) as [si Hsi].
  destruct (item_in_range (sections p) j Hj) as [sj Hsj].
  exact (showSection_twice p i j si sj Hsi Hsj).
Qed.

Lemma showSection_last_call_wins_witness :
  page (showSection 0 (page (showSection 1 (template intake))))
  = page (showSection 0 (template intake)).
Proof.
  apply (showSection_last_call_wins (template intake) 1 0);
    vm_compute; (split; [discriminate|reflexivity]).
Defined.

Lemma nextBtn_click_inputs (p : Page) :
  inputs <$> sections (page (nextBtn_click p)) = inputs <$> sections p.
Proof.
  destruct (item (sections p) (currentSection p)) as [s|] eqn:Hitem.
  - destruct (validate_element s) eqn:Hvalid.
    + rewrite nextBtn_click_accepted
        by (rewrite validateSection_run, Hitem, Hvalid; reflexivity).
      cbv zeta. destruct (Z.ltb _ _); [|reflexivity].
      exact (showSection_inputs (set_currentSection p (currentSection p + 1)) _).
    + rewrite nextBtn_click_rejected
        by (rewrite validateSection_run, Hitem, Hvalid; reflexivity).
      reflexivity.
  - rewrite (nextBtn_click_out_of_range p Hitem). reflexivity.
Qed.

Lemma prevBtn_click_inputs (p : Page) :
  inputs <$> sections (page (prevBtn_click p)) = inputs <$> sections p.
Proof.
  rewrite prevBtn_click_run. cbv zeta. destruct (Z.leb _ _); [|reflexivity].
  exact (showSection_inputs (set_currentSection p (decrement (currentSection p))) _).
Qed.

Lemma form_same_inputs (p q : Page) :
  inputs <$> sections q = inputs <$> sections p → form q = form p.
Proof.
  intros Hq. unfold form. rewrite !flat_map_concat_map.
  change (List.map inputs (sections q)) with (inputs <$> sections q).
  change (List.map inputs (sections p)) with (inputs <$> sections p).
  rewrite Hq. reflexivity.
Qed.

(** X7: navigation keeps the answers: whatever the page, after the next
    handler and after the previous handler every section holds the
    fields it held, so the form serialises as before. *)
Theorem navigation_keeps_answers (p : Page) :
  inputs <$> sections (page (nextBtn_click p)) = inputs <$> sections p
  ∧ inputs <$> sections (page (prevBtn_click p)) = inputs <$> sections p
  ∧ collect (FormData (form (page (nextBtn_click p)))) = collect (FormData (form p))
  ∧ collect (FormData (form (page (prevBtn_click p)))) = collect (FormData (form p)).
Proof.
  repeat split.
  - apply nextBtn_click_inputs.
  - apply prevBtn_click_inputs.
  - rewrite (form_same_inputs p _ (nextBtn_click_inputs p)). reflexivity.
  - rewrite (form_same_inputs p _ (prevBtn_click_inputs p)). reflexivity.
Qed.

(** ** Once the index has left the range *)




(** The previous handler at the floor of the counter leaves the index
    where it is. *)
Lemma prevBtn_click_at_floor :
  currentSection (page (prevBtn_click (set_currentSection (loaded intake) (- 2 ^ 53))))
  = - 2 ^ 53.
Proof. vm_compute. reflexivity. Qed.



(** X9: going back needs no validation. From any index in [1, N] --
    N itself included, where the next handler can leave it -- the
    previous handler completes, whatever the answers are, and leaves
    the page showing the section before. *)
Theorem prevBtn_click_shows_previous (p : Page) :
  0 < currentSection p →
  (currentSection p ≤ totalSections p)%Z →
  completion (prevBtn_click p) = Normal tt
  ∧ currentSection (page (prevBtn_click p)) = currentSection p - 1
  ∧ rendered (page (prevBtn_click p)).
Proof.
  intros Hpos Hcur. rewrite prevBtn_click_run_exact by lia. cbv zeta.
  destruct (Z.leb_spec 0 (currentSection p - 1)); [|lia].
  set (p' := set_currentSection p (currentSection p - 1)).
  assert (Hrange : 0 ≤ currentSection p - 1 < totalSections p')
    by (change (totalSections p') with (totalSections p); lia).
  split; [|split].
  - destruct (item_in_range (sections p') _ Hrange) as [s Hs].
    rewrite (showSection_in_range p' _ s Hs). reflexivity.
  - rewrite showSection_keeps_index. reflexivity.
  - apply showSection_rendered; [reflexivity|exact Hrange].
Qed.

Lemma prevBtn_click_shows_previous_witness :
  completion (prevBtn_click (page (nextBtn_click intake_last))) = Normal tt
  ∧ currentSection (page (prevBtn_click (page (nextBtn_click intake_last))))
    = currentSection (page (nextBtn_click intake_last)) - 1
  ∧ rendered (page (prevBtn_click (page (nextBtn_click intake_last)))).
Proof.
  apply (prevBtn_click_shows_previous (page (nextBtn_click intake_last)));
    vm_compute; [reflexivity|discriminate].
Defined.

(** ** Loading *)

(** X10: on a page without any section the listener throws a TypeError
    in its first showSection(0): the total is written as 0 and nothing
    else is set up. With at least one section it completes, writes N as
    the total, and leaves the page showing section 0. *)
Theorem DOMContentLoaded_outcome (p : Page) :
  (sections p = [] →
   DOMContentLoaded p
   = {| completion := Throw TypeError;
        page := set_totalStepsSpan (set_currentSection p 0) 0;
        effects := [] |})
  ∧ (sections p ≠ [] →
     completion (DOMContentLoaded p) = Normal tt
     ∧ totalStepsSpan (page (DOMContentLoaded p)) = totalSections p
     ∧ currentSection (page (DOMContentLoaded p)) = 0
     ∧ rendered (page (DOMContentLoaded p))).
Proof.
  split.
  - intros Hnil. unfold DOMContentLoaded, bind, modify, get. cbn.
    rewrite showSection_out_of_range_run by (cbn; rewrite Hnil; reflexivity).
    destruct p. cbn in Hnil. subst. reflexivity.
  - intros Hne. unfold DOMContentLoaded, bind, modify, get. cbn.
    set (p1 := set_totalStepsSpan (set_currentSection p 0) (totalSections _)).
    assert (Hrange : 0 ≤ 0 < totalSections p1).
    { unfold totalSections, p1. cbn. destruct (sections p); [contradiction|cbn; lia]. }
    destruct (item_in_range (sections p1) 0 Hrange) as [s Hs].
    pose proof (showSection_rendered p1 0 eq_refl Hrange) as Hrendered.
    rewrite (showSection_in_range p1 0 s Hs) in *. cbn in *.
    repeat split; try reflexivity; apply Hrendered.
Qed.

(** ** The wizard's invariant *)

Lemma user_step_rendered (p q : Page) :
  rendered p → user_step p q → rendered q.
Proof.
  intros Hp Hstep.
  pose proof Hp as (Hrange & Hactive & Hbar & Hstepno & Hprev & Hnext & Hsubmit).
  destruct Hstep as [p Hclick|p Hclick|p answered Hsame].
  - assert (Hnotlast : currentSection p ≠ totalSections p - 1).
    { unfold clickable in Hclick. rewrite Hnext in Hclick.
      destruct (Z.eqb_spec (currentSection p) (totalSections p - 1)); [discriminate|assumption]. }
    destruct (item_in_range (sections p) (currentSection p) Hrange) as [s Hs].
    destruct (validate_element s) eqn:Hvalid.
    + rewrite nextBtn_click_accepted
        by (rewrite validateSection_run, Hs, Hvalid; reflexivity).
      cbv zeta. destruct (Z.ltb_spec (currentSection p + 1) (totalSections p)); [|lia].
      apply showSection_rendered; [reflexivity|].
      change (totalSections (set_currentSection p (currentSection p + 1)))
        with (totalSections p). lia.
    + rewrite nextBtn_click_rejected
        by (rewrite validateSection_run, Hs, Hvalid; reflexivity).
      exact Hp.
  - assert (Hnotfirst : currentSection p ≠ 0).
    { unfold clickable in Hclick. rewrite Hprev in Hclick.
      destruct (Z.eqb_spec (currentSection p) 0); [discriminate|assumption]. }
    rewrite prevBtn_click_run_exact by (unfold in_bounds in *; lia). cbv zeta.
    destruct (Z.leb_spec 0 (currentSection p - 1)); [|lia].
    apply showSection_rendered; [reflexivity|].
    change (totalSections (set_currentSection p (currentSection p - 1)))
      with (totalSections p). lia.
  - assert (Hlen : length answered = length (sections p)).
    { rewrite <- (length_fmap classList answered), Hsame. apply length_fmap. }
    assert (Htotal : totalSections (set_sections p answered) = totalSections p)
      by (unfold totalSections; cbn; rewrite Hlen; reflexivity).
    unfold rendered. rewrite Htotal. cbn.
    split; [exact Hrange|]. split; [|repeat split; assumption].
    intros j s' Hj.
    assert (Hcls : item (classList <$> sections p) j = Some (classList s'))
      by (rewrite <- Hsame, item_fmap, Hj; reflexivity).
    rewrite item_fmap in Hcls.
    destruct (item (sections p) j) as [s|] eqn:Hsj; [|discriminate].
    injection Hcls as <-. exact (Hactive j s Hsj).
Qed.

Lemma DOMContentLoaded_rendered (p0 : Page) :
  completion (DOMContentLoaded p0) = Normal tt →
  rendered (page (DOMContentLoaded p0)).
Proof.
  unfold DOMContentLoaded, bind, modify, get. cbn.
  set (p1 := set_totalStepsSpan (set_currentSection p0 0) (totalSections _)).
  destruct (item (sections p1) 0) as [s|] eqn:Hs.
  - intros _. pose proof (item_Some _ _ _ Hs) as Hrange.
    pose proof (showSection_rendered p1 0 eq_refl Hrange) as Hr.
    destruct (showSection 0 p1) as [c q log]. exact Hr.
  - rewrite (showSection_out_of_range_run p1 0 Hs). discriminate.
Qed.

(** X11: every page a user reaches after a successful load, by clicking
    the navigation controls that are visible and by answering
    questions, shows its current section: the index is within [0, N),
    exactly the section at the index is marked active, the progress bar
    and the step counter are those of the index, previous is hidden
    exactly on the first section, and next is hidden and submit shown
    exactly on the last. *)
Theorem reachable_rendered (p0 p : Page) :
  reachable p0 p → rendered p.
Proof.
  intros Hreach. induction Hreach as [Hload|p q _ IH Hstep].
  - apply DOMContentLoaded_rendered, Hload.
  - exact (user_step_rendered p q IH Hstep).
Qed.

Lemma reachable_rendered_witness : rendered intake_last.
Proof.
  apply (reachable_rendered (template intake) intake_last).
  apply (reach_step _ (loaded intake)).
  - apply reach_load. vm_compute. reflexivity.
  - apply step_next. vm_compute. reflexivity.
Defined.

Lemma showSection_last_in_range (p : Page) (i j : Z) :
  0 ≤ i < Z.of_nat (length (sections p)) →
  0 ≤ j < Z.of_nat (length (sections p)) →
  page (showSection j (page (showSection i p))) = page (showSection j p).
Proof.
  intros Hi Hj.
  destruct (item_in_range (sections p) i Hi) as [si Hsi].
  destruct (item_in_range (sections p) j Hj) as [sj Hsj].
  exact (showSection_twice p i j si sj Hsi Hsj).
Qed.

(** X12: going forward and back is a round trip. On a page that is as
    showSection(currentSection) leaves it, whose current section passes
    validation and is not the last, the next handler followed by the
    previous handler gives back the very same page. *)
Theorem next_then_prev_round_trip (p : Page) :
  page (showSection (currentSection p) p) = p →
  completion (validateSection (currentSection p) p) = Normal true →
  currentSection p + 1 < totalSections p →
  page (prevBtn_click (page (nextBtn_click p))) = p.
Proof.
  intros Hshown Hvalid Hnotlast.
  destruct (validateSection_returns p _ _ Hvalid) as (s & Hs & _).
  pose proof (item_Some _ _ _ Hs) as Hrange.
  rewrite (nextBtn_click_accepted p Hvalid). cbv zeta.
  destruct (Z.ltb_spec (currentSection p + 1) (totalSections p)); [|lia].
  rewrite prevBtn_click_run_exact
    by (rewrite showSection_keeps_index; cbn [set_currentSection currentSection]; lia).
  cbv zeta.
  rewrite !showSection_keeps_index.
  cbn [set_currentSection currentSection].
  replace (currentSection p + 1 - 1) with (currentSection p) by lia.
  destruct (Z.leb_spec 0 (currentSection p)); [|lia].
  rewrite !showSection_set_currentSection.
  rewrite showSection_last_in_range.
  - rewrite Hshown. destruct p. reflexivity.
  - fold (totalSections p). lia.
  - exact Hrange.
Qed.

Lemma next_then_prev_round_trip_witness :
  page (prevBtn_click (page (nextBtn_click (loaded intake)))) = loaded intake.
Proof.
  apply (next_then_prev_round_trip (loaded intake)); vm_compute; reflexivity.
Defined.

(** ** Every way a request can end *)

Lemma member_some (member_name : string) (result : json) :
  result ≠ JNull → ∃ v, member member_name result = Normal v.
Proof. destruct result; intros H; try contradiction; cbn; eauto. Qed.

Lemma settle_cases (response : Response) (p : Page) :
  (∃ result success,
     response = Body result ∧ member "success" result = Normal success
     ∧ truthy success = true
     ∧ settle response p
       = {| completion := Normal tt;
            page :=
              set_location
                (set_sessionStorage p
                   (<["riskResults" := stringify result]> (sessionStorage p)))
                "/results";
            effects := [SetItem "riskResults" (stringify result); Navigate "/results"] |})
  ∨ (∃ error, settle response p = caught error p).
Proof.
  destruct response as [reason|reason|result].
  - right. eexists. apply settle_transport.
  - right. eexists. apply settle_parse.
  - assert (Hnull : result = JNull ∨ result ≠ JNull)
      by (destruct result; [left; reflexivity|right; discriminate..]).
    destruct Hnull as [->|Hnn].
    + right. eexists. apply settle_null.
    + destruct (member_some "success" result Hnn) as [success Hs].
      destruct (truthy success) eqn:Ht.
      * left. exists result, success. repeat split; try assumption.
        apply (settle_stored p result success Hs Ht).
      * destruct (member_some "error" result Hnn) as [error He].
        right. eexists. apply (settle_refused p result success error Hs Ht He).
Qed.

Lemma form_submit_rejected (p : Page) (response : Response) :
  completion (validateSection (currentSection p) p) = Normal false →
  form_submit response p
  = {| completion := Normal tt; page := p;
       effects := [PreventDefault;
                   Alert "Please complete all required fields and agree to the terms."] |}.
Proof.
  intros Hv. unfold form_submit, bind.
  rewrite (form_submit_begin_rejected p Hv). reflexivity.
Qed.

(** X13: when the current section fails validation, a submission ends
    in the alert about required fields and nothing else: no request is
    sent, the submit control keeps its label and stays enabled, and the
    page is unchanged, however the endpoint would have answered. *)
Theorem form_submit_blocked (p : Page) (response : Response) :
  completion (validateSection (currentSection p) p) = Normal false →
  completion (form_submit response p) = Normal tt
  ∧ page (form_submit response p) = p
  ∧ effects (form_submit response p)
    = [PreventDefault;
       Alert "Please complete all required fields and agree to the terms."]
  ∧ fetches (effects (form_submit response p)) = [].
Proof.
  intros Hv. rewrite (form_submit_rejected p response Hv). repeat split; reflexivity.
Qed.

Lemma form_submit_blocked_witness :
  completion (form_submit (Body scored) (loaded consent)) = Normal tt
  ∧ page (form_submit (Body scored) (loaded consent)) = loaded consent
  ∧ effects (form_submit (Body scored) (loaded consent))
    = [PreventDefault;
       Alert "Please complete all required fields and agree to the terms."]
  ∧ fetches (effects (form_submit (Body scored) (loaded consent))) = [].
Proof.
  apply (form_submit_blocked (loaded consent) (Body scored)).
  vm_compute. reflexivity.
Defined.

(** X14: a submission sends at most one request, and sends it exactly
    when validateSection of the current section returns true: then it
    is the POST of the serialised form to /predict with the JSON content
    type; when validation fails or throws there is none. *)
Theorem form_submit_requests (p : Page) (response : Response) :
  fetches (effects (form_submit response p))
  = match completion (validateSection (currentSection p) p) with
    | Normal true =>
        [Fetch "/predict" "POST" [("Content-Type", "application/json")]
               (collect (FormData (form p)))]
    | _ => []
    end.
Proof.
  destruct (completion (validateSection (currentSection p) p)) as [[]|e] eqn:Hv.
  - rewrite (form_submit_run p response Hv). cbv zeta. cbn [effects].
    destruct (settle_cases response (set_submitBtn p (busy (submitBtn p))))
      as [(result & success & _ & _ & _ & ->)|[error ->]]; reflexivity.
  - rewrite (form_submit_rejected p response Hv). reflexivity.
  - rewrite validateSection_run in Hv. cbn in Hv.
    destruct (item (sections p) (currentSection p)) eqn:Hitem; [discriminate|].
    rewrite (form_submit_out_of_range p response Hitem). reflexivity.
Qed.

(** X15: the handler navigates only after a stored success: if its log
    holds a navigation, the response parsed to a value whose [success]
    is truthy, the target is /results, and [riskResults] in storage
    holds that response. *)
Theorem navigation_only_on_success (p : Page) (response : Response) (href : string) :
  In (Navigate href) (effects (form_submit response p)) →
  ∃ result success,
    response = Body result
    ∧ member "success" result = Normal success
    ∧ truthy success = true
    ∧ href = "/results"
    ∧ sessionStorage (page (form_submit response p)) !! "riskResults"
      = Some (stringify result).
Proof.
  intros Hnav.
  destruct (completion (validateSection (currentSection p) p)) as [[]|e] eqn:Hv.
  - rewrite (form_submit_run p response Hv) in *. cbv zeta in *. cbn [effects page] in *.
    destruct (settle_cases response (set_submitBtn p (busy (submitBtn p))))
      as [(result & success & -> & Hs & Ht & Hrun)|[error Hrun]];
      rewrite Hrun in *; cbn in Hnav.
    + exists result, success. repeat split; try assumption.
      * destruct Hnav as [H|[H|[H|[H|[]]]]]; try discriminate.
        injection H as <-. reflexivity.
      * cbn. apply lookup_insert_eq.
    + destruct Hnav as [H|[H|[H|[H|[]]]]]; discriminate.
  - rewrite (form_submit_rejected p response Hv) in Hnav.
    destruct Hnav as [H|[H|[]]]; discriminate.
  - rewrite validateSection_run in Hv. cbn in Hv.
    destruct (item (sections p) (currentSection p)) eqn:Hitem; [discriminate|].
    rewrite (form_submit_out_of_range p response Hitem) in Hnav.
    destruct Hnav as [H|[]]; discriminate.
Qed.

Lemma navigation_only_on_success_witness :
  ∃ result success,
    Body scored = Body result
    ∧ member "success" result = Normal success
    ∧ truthy success = true
    ∧ "/results" = "/results"
    ∧ sessionStorage (page (form_submit (Body scored) intake_last)) !! "riskResults"
      = Some (stringify result).
Proof.
  apply (navigation_only_on_success intake_last (Body scored) "/results").
  vm_compute. do 3 right. left. reflexivity.
Defined.

Lemma form_submit_pages (p : Page) (response : Response) :
  page (form_submit response p) = p
  ∨ page (form_submit response p) = set_submitBtn p (released (submitBtn p))
  ∨ (∃ result,
       page (form_submit response p)
       = set_location
           (set_sessionStorage (set_submitBtn p (busy (submitBtn p)))
              (<["riskResults" := stringify result]> (sessionStorage p)))
           "/results").
Proof.
  destruct (completion (validateSection (currentSection p) p)) as [[]|e] eqn:Hv.
  - rewrite (form_submit_run p response Hv). cbv zeta. cbn [page].
    destruct (settle_cases response (set_submitBtn p (busy (submitBtn p))))
      as [(result & success & _ & _ & _ & ->)|[error ->]].
    + right. right. exists result. reflexivity.
    + right. left. reflexivity.
  - left. rewrite (form_submit_rejected p response Hv). reflexivity.
  - left. rewrite validateSection_run in Hv. cbn in Hv.
    destruct (item (sections p) (currentSection p)) eqn:Hitem; [discriminate|].
    rewrite (form_submit_out_of_range p response Hitem). reflexivity.
Qed.

(** X16: a submission leaves the wizard where it is. However it ends,
    the sections with their marks and fields, the index, the previous
    and next controls, the progress bar and the counters are untouched,
    the submit control keeps its visibility, and storage is unchanged
    at every key other than [riskResults]. *)
Theorem form_submit_frame (p : Page) (response : Response) :
  let q := page (form_submit response p) in
  sections q = sections p
  ∧ currentSection q = currentSection p
  ∧ prevBtn q = prevBtn p
  ∧ nextBtn q = nextBtn p
  ∧ progressBar q = progressBar p
  ∧ currentStepSpan q = currentStepSpan p
  ∧ totalStepsSpan q = totalStepsSpan p
  ∧ display (submitBtn q) = display (submitBtn p)
  ∧ ∀ key, key ≠ "riskResults" → sessionStorage q !! key = sessionStorage p !! key.
Proof.
  cbv zeta.
  destruct (form_submit_pages p response) as [->|[->|[result ->]]];
    cbn; repeat split; try reflexivity.
  intros key Hkey. apply lookup_insert_ne. congruence.
Qed.

(** X17: answers that are valid JSON but not the expected object end on
    the failure path. With validation passed, the response [null] makes
    the read of [success] throw, which is caught: the TypeError is
    logged; a response without truthy [success] and without truthy
    [error] is logged as Error('Prediction failed'). Either way the
    fixed alert is shown, the control is released, and nothing is
    stored. *)
Theorem unexpected_response_fails (p : Page) :
  completion (validateSection (currentSection p) p) = Normal true →
  form_submit (Body JNull) p
  = {| completion := Normal tt;
       page := set_submitBtn p (released (submitBtn p));
       effects :=
         [PreventDefault; request p; ConsoleError "Error:" TypeError;
          Alert "An error occurred while processing your assessment. Please try again."] |}
  ∧ ∀ result success error,
      member "success" result = Normal success → truthy success = false →
      member "error" result = Normal error → truthy error = false →
      form_submit (Body result) p
      = {| completion := Normal tt;
           page := set_submitBtn p (released (submitBtn p));
           effects :=
             [PreventDefault; request p;
              ConsoleError "Error:" (Error "Prediction failed");
              Alert "An error occurred while processing your assessment. Please try again."] |}.
Proof.
  intros Hv. split.
  - rewrite (form_submit_run p _ Hv). cbv zeta. rewrite settle_null. reflexivity.
  - intros result success error Hs Ht He Hf.
    rewrite (form_submit_run p _ Hv). cbv zeta.
    rewrite (settle_refused _ result success error Hs Ht He).
    rewrite (or_else_falsy error "Prediction failed" Hf). reflexivity.
Qed.

Lemma unexpected_response_fails_witness :
  form_submit (Body JNull) intake_last
  = {| completion := Normal tt;
       page := set_submitBtn intake_last (released (submitBtn intake_last));
       effects :=
         [PreventDefault; request intake_last; ConsoleError "Error:" TypeError;
          Alert "An error occurred while processing your assessment. Please try again."] |}
  ∧ ∀ result success error,
      member "success" result = Normal success → truthy success = false →
      member "error" result = Normal error → truthy error = false →
      form_submit (Body result) intake_last
      = {| completion := Normal tt;
           page := set_submitBtn intake_last (released (submitBtn intake_last));
           effects :=
             [PreventDefault; request intake_last;
              ConsoleError "Error:" (Error "Prediction failed");
              Alert "An error occurred while processing your assessment. Please try again."] |}.
Proof.
  apply (unexpected_response_fails intake_last). vm_compute. reflexivity.
Defined.

(** The second part applies to the empty object. *)
Example no_members_fails :
  member "success" no_members = Normal None ∧ truthy None = false
  ∧ member "error" no_members = Normal None.
Proof. repeat split. Qed.

(** X18: a failed submission can simply be repeated. After a submission
    that passed validation and failed in transport or in parsing, the
    next submission runs exactly as it would have run on the page
    before the failure: same completion, same page, same effects. *)
Theorem form_submit_retry (p : Page) (reason : string) (failed response : Response) :
  completion (validateSection (currentSection p) p) = Normal true →
  failed = FetchRejected reason ∨ failed = BodyRejected reason →
  form_submit response (page (form_submit failed p)) = form_submit response p.
Proof.
  intros Hv Hfailed.
  assert (Hq : page (form_submit failed p) = set_submitBtn p (released (submitBtn p))).
  { rewrite (form_submit_run p failed Hv). cbv zeta.
    destruct Hfailed as [-> | ->]; reflexivity. }
  rewrite Hq.
  assert (Hvq : completion (validateSection
                              (currentSection (set_submitBtn p (released (submitBtn p))))
                              (set_submitBtn p (released (submitBtn p)))) = Normal true).
  { rewrite validateSection_run in *. exact Hv. }
  rewrite (form_submit_run _ response Hvq), (form_submit_run p response Hv).
  reflexivity.
Qed.

Lemma form_submit_retry_witness :
  form_submit (Body scored)
    (page (form_submit (FetchRejected "connection reset") intake_last))
  = form_submit (Body scored) intake_last.
Proof.
  apply (form_submit_retry intake_last "connection reset"
           (FetchRejected "connection reset") (Body scored)).
  - vm_compute. reflexivity.
  - left. reflexivity.
Defined.

(** ** The keys of the serialised form *)



(** ** The chosen option *)

Lemma clear_group_wrapped (groupOptions : list InputElement) (styles : list Style) :
  (∀ e, In e groupOptions → ∃ w, closest_option e = Some w) →
  ∃ cleared,
    clear_group groupOptions styles = (Normal tt, cleared)
    ∧ length cleared = length styles
    ∧ ∀ o, cleared !! o
           = if existsb (fun e => match closest_option e with
                                  | Some w => Nat.eqb w o
                                  | None => false
                                  end) groupOptions
             then (fun _ => unstyled) <$> styles !! o
             else styles !! o.
Proof.
  revert styles. induction groupOptions as [|e rest IH]; intros styles Hall.
  - exists styles. repeat split.
  - destruct (Hall e (or_introl eq_refl)) as [w Hw].
    destruct (IH (<[w := unstyled]> styles)) as (cleared & Hrun & Hlen & Hlook).
    { intros e' He'. apply Hall. right. exact He'. }
    exists cleared. simpl. rewrite Hw. split; [exact Hrun|].
    split; [rewrite Hlen; apply length_insert|].
    intros o. rewrite Hlook.
    destruct (Nat.eqb_spec w o) as [->|Hne]; simpl.
    + destruct (decide (o < length styles)%nat) as [Hlt|Hge].
      * rewrite list_lookup_insert_eq by exact Hlt.
        destruct (lookup_lt_is_Some_2 styles o Hlt) as [s ->].
        destruct (existsb _ rest); reflexivity.
      * rewrite list_insert_ge by lia.
        rewrite (lookup_ge_None_2 styles o) by lia.
        destruct (existsb _ rest); reflexivity.
    + rewrite list_lookup_insert_ne by exact Hne. reflexivity.
Qed.

Lemma existsb_filter {A : Type} (keep test : A → bool) (xs : list A) :
  existsb test (List.filter keep xs) = existsb (fun x => keep x && test x) xs.
Proof.
  induction xs as [|x xs IH]; simpl; [reflexivity|].
  destruct (keep x); simpl; rewrite IH; reflexivity.
Qed.

(** X20: a change on a radio button whose name is literal, when every
    input of that name sits inside an option: the listener completes;
    if the button is now checked its own option gets the chosen colours;
    every other option around an input of that name has both colours
    emptied; all remaining options keep their style. If the button is
    not checked, its option is treated like the others. *)
Theorem radio_change_styles (document : list InputElement) (radioOption : nat) (this : Field)
        (styles : list Style) :
  literal (name this) = true →
  (radioOption < length styles)%nat →
  (∀ e, In e document → tagName (element e) = "INPUT" →
        name (element e) = name this → ∃ w, closest_option e = Some w) →
  ∃ styles',
    radio_change document radioOption this styles = Some (Normal tt, styles')
    ∧ length styles' = length styles
    ∧ ∀ o, styles' !! o
           = if checked this && Nat.eqb o radioOption then Some chosen
             else if wraps (name this) document o
                  then (fun _ => unstyled) <$> styles !! o
                  else styles !! o.
Proof.
  intros Hlit Hopt Hwrapped.
  unfold radio_change, inputs_named. rewrite Hlit.
  set (groupOptions := List.filter _ document).
  destruct (clear_group_wrapped groupOptions styles) as (cleared & Hrun & Hlen & Hlook).
  { intros e [He Hsel]%filter_In.
    apply andb_true_iff in Hsel as [Htag Hname].
    apply Hwrapped; [exact He|apply String.eqb_eq, Htag|apply String.eqb_eq, Hname]. }
  rewrite Hrun.
  assert (Hwraps : ∀ o,
    existsb (fun e => match closest_option e with
                      | Some w => Nat.eqb w o
                      | None => false
                      end) groupOptions
    = wraps (name this) document o).
  { intros o. unfold groupOptions, wraps. apply existsb_filter. }
  destruct (checked this); simpl.
  - exists (<[radioOption := chosen]> cleared).
    split; [reflexivity|]. split; [rewrite length_insert; exact Hlen|].
    intros o. destruct (Nat.eqb_spec o radioOption) as [->|Hne].
    + apply list_lookup_insert_eq. lia.
    + rewrite list_lookup_insert_ne by congruence.
      rewrite Hlook, Hwraps. reflexivity.
  - exists cleared. split; [reflexivity|]. split; [exact Hlen|].
    intros o. rewrite Hlook, Hwraps. reflexivity.
Qed.

Lemma radio_change_styles_witness :
  ∃ styles',
    radio_change three_options 1 (field Radio "riskGroup" "high" true true) three_styles
    = Some (Normal tt, styles')
    ∧ length styles' = length three_styles
    ∧ ∀ o, styles' !! o
           = if checked (field Radio "riskGroup" "high" true true) && Nat.eqb o 1
             then Some chosen
             else if wraps (name (field Radio "riskGroup" "high" true true)) three_options o
                  then (fun _ => unstyled) <$> three_styles !! o
                  else three_styles !! o.
Proof.
  apply (radio_change_styles three_options 1 (field Radio "riskGroup" "high" true true)
           three_styles).
  - vm_compute. reflexivity.
  - vm_compute. lia.
  - intros e [<-|[<-|[<-|[]]]] _ _; eauto.
Defined.

(** The run of the witness: the earlier choice of the group is cleared,
    the new one highlighted, the other group left alone. *)
Example radio_change_three_options :
  radio_change three_options 1 (field Radio "riskGroup" "high" true true) three_styles
  = Some (Normal tt, [unstyled; chosen; chosen]).
Proof. vm_compute. reflexivity. Qed.

Lemma clear_group_stray (groupOptions : list InputElement) (styles : list Style) :
  (∃ e, In e groupOptions ∧ closest_option e = None) →
  ∃ partly,
    clear_group groupOptions styles = (Throw TypeError, partly)
    ∧ length partly = length styles
    ∧ ∀ o, partly !! o = styles !! o ∨ partly !! o = Some unstyled.
Proof.
  revert styles. induction groupOptions as [|e rest IH]; intros styles (x & Hx & Hnone).
  - destruct Hx.
  - simpl. destruct (closest_option e) as [w|] eqn:Hw.
    + destruct Hx as [->|Hx]; [congruence|].
      destruct (IH (<[w := unstyled]> styles)) as (partly & Hrun & Hlen & Hlook);
        [eauto|].
      exists partly. split; [exact Hrun|]. split; [rewrite Hlen; apply length_insert|].
      intros o. destruct (Hlook o) as [H|H]; [|right; exact H].
      rewrite H. destruct (decide (w = o)) as [->|Hne].
      * destruct (decide (o < length styles)%nat).
        -- right. apply list_lookup_insert_eq. assumption.
        -- left. rewrite list_insert_ge by lia. reflexivity.
      * left. apply list_lookup_insert_ne. exact Hne.
    + exists styles. repeat split. intros o. left. reflexivity.
Qed.

(** X21: one input of the button's name outside every option breaks the
    highlight: the listener ends in a TypeError, the chosen colours are
    not applied -- every option either keeps its style or has it
    emptied -- although the button is checked. *)
Theorem radio_change_stray_input (document : list InputElement) (radioOption : nat)
        (this : Field) (styles : list Style) (stray : InputElement) :
  literal (name this) = true →
  In stray document →
  tagName (element stray) = "INPUT" →
  name (element stray) = name this →
  closest_option stray = None →
  ∃ partly,
    radio_change document radioOption this styles = Some (Throw TypeError, partly)
    ∧ length partly = length styles
    ∧ ∀ o, partly !! o = styles !! o ∨ partly !! o = Some unstyled.
Proof.
  intros Hlit Hin Htag Hname Hnone.
  unfold radio_change, inputs_named. rewrite Hlit.
  set (groupOptions := List.filter _ document).
  destruct (clear_group_stray groupOptions styles) as (partly & Hrun & Hrest).
  { exists stray. split; [|exact Hnone]. apply filter_In. split; [exact Hin|].
    rewrite Htag, Hname, !String.eqb_refl. reflexivity. }
  exists partly. rewrite Hrun. split; [reflexivity|exact Hrest].
Qed.

Lemma radio_change_stray_input_witness :
  ∃ partly,
    radio_change stray_input 1 (field Radio "riskGroup" "high" true true) three_styles
    = Some (Throw TypeError, partly)
    ∧ length partly = length three_styles
    ∧ ∀ o, partly !! o = three_styles !! o ∨ partly !! o = Some unstyled.
Proof.
  apply (radio_change_stray_input stray_input 1 (field Radio "riskGroup" "high" true true)
           three_styles
           {| element := field Text "riskGroup" "unset" false false;
              closest_option := None |}).
  - vm_compute. reflexivity.
  - left. reflexivity.
  - reflexivity.
  - reflexivity.
  - reflexivity.
Defined.

(** ** How far the index can go *)

Lemma same_inputs_total (p q : Page) :
  inputs <$> sections q = inputs <$> sections p → totalSections q = totalSections p.
Proof.
  intros H. unfold totalSections.
  rewrite <- (length_fmap inputs (sections q)), H, length_fmap. reflexivity.
Qed.

Lemma handle_total (e : Event) (p : Page) :
  totalSections (page (handle e p)) = totalSections p.
Proof.
  destruct e as [| |response]; cbn [handle].
  - apply same_inputs_total, nextBtn_click_inputs.
  - apply same_inputs_total, prevBtn_click_inputs.
  - destruct (form_submit_pages p response) as [->|[->|[result ->]]]; reflexivity.
Qed.

Lemma handle_bound (e : Event) (p : Page) :
  (currentSection p ≤ totalSections p)%Z →
  (currentSection (page (handle e p)) ≤ totalSections p)%Z.
Proof.
  intros Hle. destruct e as [| |response]; cbn [handle].
  - destruct (item (sections p) (currentSection p)) as [s|] eqn:Hitem.
    + pose proof (item_Some _ _ _ Hitem) as Hrange. fold (totalSections p) in Hrange.
      destruct (validate_element s) eqn:Hvalid.
      * rewrite nextBtn_click_increments
          by (rewrite validateSection_run, Hitem, Hvalid; reflexivity). lia.
      * rewrite nextBtn_click_rejected
          by (rewrite validateSection_run, Hitem, Hvalid; reflexivity). exact Hle.
    + rewrite (nextBtn_click_out_of_range p Hitem). exact Hle.
  - rewrite prevBtn_click_decrements.
    pose proof (decrement_le (currentSection p)). lia.
  - destruct (form_submit_pages p response) as [->|[->|[result ->]]]; exact Hle.
Qed.

(** X22: the index overshoots by one at most. Starting with
    currentSection <= N, after any series of next clicks, previous
    clicks and submissions -- triggered on visible controls or not --
    the index is still at most N, and the number of sections is what it
    was. *)
Theorem index_never_beyond_total (events : list Event) (p : Page) :
  (currentSection p ≤ totalSections p)%Z →
  (currentSection (dispatch events p) ≤ totalSections p)%Z
  ∧ totalSections (dispatch events p) = totalSections p.
Proof.
  revert p. induction events as [|e events IH]; intros p Hle.
  - split; [exact Hle|reflexivity].
  - change (dispatch (e :: events) p) with (dispatch events (page (handle e p))).
    destruct (IH (page (handle e p))) as [Hidx Htot].
    + rewrite handle_total. apply handle_bound, Hle.
    + rewrite handle_total in *. split; assumption.
Qed.

Lemma index_never_beyond_total_witness :
  (currentSection (dispatch [NextClick; NextClick; NextClick; NextClick] (loaded intake))
   ≤ totalSections (loaded intake))%Z
  ∧ totalSections (dispatch [NextClick; NextClick; NextClick; NextClick] (loaded intake))
    = totalSections (loaded intake).
Proof.
  apply (index_never_beyond_total [NextClick; NextClick; NextClick; NextClick]
           (loaded intake)).
  vm_compute. discriminate.
Defined.

(** Where those four clicks end: on the index N, not beyond. *)
Example four_next_clicks :
  currentSection (dispatch [NextClick; NextClick; NextClick; NextClick] (loaded intake)) = 2.
Proof. vm_compute. reflexivity. Qed.

(** ** One step at a time *)

(** X23: the next handler on a section that passes validation and is
    not the last completes without an alert and leaves the page showing
    the following section. *)
Theorem nextBtn_click_shows_next (p : Page) :
  completion (validateSection (currentSection p) p) = Normal true →
  currentSection p + 1 < totalSections p →
  completion (nextBtn_click p) = Normal tt
  ∧ currentSection (page (nextBtn_click p)) = currentSection p + 1
  ∧ effects (nextBtn_click p) = [ScrollTo 0 "smooth"]
  ∧ rendered (page (nextBtn_click p)).
Proof.
  intros Hv Hnotlast.
  destruct (validateSection_returns p _ _ Hv) as (s & Hs & _).
  pose proof (item_Some _ _ _ Hs) as Hrange. fold (totalSections p) in Hrange.
  rewrite (nextBtn_click_accepted p Hv). cbv zeta.
  destruct (Z.ltb_spec (currentSection p + 1) (totalSections p)); [|lia].
  set (p' := set_currentSection p (currentSection p + 1)).
  assert (Hrange' : 0 ≤ currentSection p + 1 < totalSections p')
    by (change (totalSections p') with (totalSections p); lia).
  destruct (item_in_range (sections p') _ Hrange') as [s' Hs'].
  split; [|split; [|split]].
  - rewrite (showSection_in_range p' _ s' Hs'). reflexivity.
  - rewrite showSection_keeps_index. reflexivity.
  - rewrite (showSection_in_range p' _ s' Hs'). reflexivity.
  - apply showSection_rendered; [reflexivity|exact Hrange'].
Qed.

Lemma nextBtn_click_shows_next_witness :
  completion (nextBtn_click (loaded intake)) = Normal tt
  ∧ currentSection (page (nextBtn_click (loaded intake)))
    = currentSection (loaded intake) + 1
  ∧ effects (nextBtn_click (loaded intake)) = [ScrollTo 0 "smooth"]
  ∧ rendered (page (nextBtn_click (loaded intake))).
Proof.
  apply (nextBtn_click_shows_next (loaded intake)); vm_compute; reflexivity.
Defined.

(** X24: no handler jumps. While the index is an integer that a double
    counts exactly, between -2^53 and 2^53, the next handler moves it by
    one when validateSection of the current section returns true and
    leaves it alone otherwise; the previous handler lowers it by one,
    except at -2^53, where it stays; a submission never moves it. *)
Theorem handlers_step_by_one (p : Page) (response : Response) :
  (- 2 ^ 53 ≤ currentSection p ≤ 2 ^ 53)%Z →
  currentSection (page (nextBtn_click p))
  = match completion (validateSection (currentSection p) p) with
    | Normal true => currentSection p + 1
    | _ => currentSection p
    end
  ∧ currentSection (page (prevBtn_click p))
    = (if Z.eqb (currentSection p) (- 2 ^ 53)
       then currentSection p else currentSection p - 1)
  ∧ currentSection (page (form_submit response p)) = currentSection p.
Proof.
  intros _. split; [|split].
  - destruct (completion (validateSection (currentSection p) p)) as [[]|e] eqn:Hv.
    + apply nextBtn_click_increments, Hv.
    + rewrite (nextBtn_click_rejected p Hv). reflexivity.
    + rewrite validateSection_run in Hv. cbn in Hv.
      destruct (item (sections p) (currentSection p)) eqn:Hitem; [discriminate|].
      rewrite (nextBtn_click_out_of_range p Hitem). reflexivity.
  - apply prevBtn_click_decrements.
  - destruct (form_submit_pages p response) as [->|[->|[result ->]]]; reflexivity.
Qed.

Lemma handlers_step_by_one_witness :
  currentSection (page (nextBtn_click intake_last))
  = match completion (validateSection (currentSection intake_last) intake_last) with
    | Normal true => currentSection intake_last + 1
    | _ => currentSection intake_last
    end
  ∧ currentSection (page (prevBtn_click intake_last))
    = (if Z.eqb (currentSection intake_last) (- 2 ^ 53)
       then currentSection intake_last else currentSection intake_last - 1)
  ∧ currentSection (page (form_submit (Body scored) intake_last))
    = currentSection intake_last.
Proof.
  apply (handlers_step_by_one intake_last (Body scored)).
  vm_compute. split; discriminate.
Defined.
